(** * CBextBaseBundleExtension: the base class of a Burn bundle extension

    A shallow embedding of [src/bextutil/inc/BextBaseBundleExtension.h].
    The class is a COM object: [QueryInterface], [AddRef] and [Release]
    manage its identity and lifetime, [Search] and [BundleExtensionProc]
    are the two extension points, [Initialize] copies the data path, and
    the constructor and destructor take and give back one reference to
    the host engine.

    Member functions are state transformers over a [World] that holds the
    object, the reference count of the host engine and the string heap.
    A computation yields [None] where the C++ has no defined behaviour
    (a member call on a deleted object, a null pointer dereference). *)

From Stdlib Require Import ZArith List String Bool Lia.
Import ListNotations.
Local Open Scope Z_scope.

(** ** Machine integers

    [long] and [HRESULT] are 32-bit signed, [ULONG] is 32-bit unsigned
    (the header is Windows only). *)

Definition LONG_MAX : Z := 2147483647.
Definition LONG_MIN : Z := -2147483648.

(** Two's complement reduction of an integer to a [long]. *)
Definition wrap_long (z : Z) : Z := (z + 2147483648) mod 4294967296 - 2147483648.

(** Conversion of a [long] to [ULONG], as in [return l;] from a function
    whose result type is [ULONG]. *)
Definition to_ULONG (z : Z) : Z := z mod 4294967296.

(** [InterlockedIncrement] and [InterlockedDecrement] on a [LONG]: the new
    value, which is both stored and returned.  The operations wrap.  Only
    their sequential meaning is modelled. *)
Definition InterlockedIncrement (v : Z) : Z := wrap_long (v + 1).
Definition InterlockedDecrement (v : Z) : Z := wrap_long (v - 1).

(** ** Status codes (winerror.h) *)

Definition HRESULT : Type := Z.

Definition S_OK : HRESULT := 0.
Definition E_NOTIMPL : HRESULT := wrap_long 0x80004001.
Definition E_NOINTERFACE : HRESULT := wrap_long 0x80004002.
Definition E_INVALIDARG : HRESULT := wrap_long 0x80070057.
Definition E_OUTOFMEMORY : HRESULT := wrap_long 0x8007000E.

Definition FAILED (hr : HRESULT) : bool := hr <? 0.

(** ** Interface identifiers *)

Record GUID : Type := mkGUID
  { Data1 : Z; Data2 : Z; Data3 : Z; Data4 : list Z }.

Fixpoint bytes_eqb (a b : list Z) : bool :=
  match a, b with
  | [], [] => true
  | x :: a', y :: b' => (x =? y) && bytes_eqb a' b'
  | _, _ => false
  end.

(** [IsEqualIID] compares the two identifiers field by field. *)
Definition IsEqualIID (a b : GUID) : bool :=
  (Data1 a =? Data1 b) && (Data2 a =? Data2 b) && (Data3 a =? Data3 b)
  && bytes_eqb (Data4 a) (Data4 b).

(** 00000000-0000-0000-C000-000000000046 *)
Definition IID_IUnknown : GUID :=
  mkGUID 0 0 0 [0xC0; 0; 0; 0; 0; 0; 0; 0x46].

(** ** Pointers and strings

    A pointer that may be null is an [option]; [None] is [NULL].  A
    null-terminated wide string is modelled by the characters before its
    terminator. *)

Definition wstring : Type := string.
Definition LPCWSTR : Type := option wstring.
Definition LPWSTR : Type := option wstring.

(** An untyped buffer pointer that this layer never looks through. *)
Definition Address : Type := Z.

(** The two interfaces the object hands out.  Both casts of [this] denote
    the object itself. *)
Inductive Interface : Type := I_IBundleExtension | I_IUnknown.

(** [static_cast<I*>(this)] *)
Inductive SelfHandle : Type := static_cast_this (i : Interface).

(** The content of an output slot of [QueryInterface]. *)
Definition LPVOID : Type := option SelfHandle.

(** Modelled from the spec: IBundleExtensionEngine.h is not among the
    sources.  The host engine is "an opaque reference-counted handle exposing at
    least increment/decrement operations".  This layer meets one engine
    object; its reference count is the [engine_refs] field of the world,
    [AddRef] adds one to it and [Release] takes one off. *)
Inductive IBundleExtensionEngine : Type := HostEngine.

(** Modelled from the spec: BundleExtension.h is not among the sources.
    The creation arguments "must expose a data-path string field"; no other
    field is read by this layer. *)
Record BUNDLE_EXTENSION_CREATE_ARGS : Type := mkCreateArgs
  { wzBundleExtensionDataPath : LPCWSTR }.

(** ** The object *)

Record CBextBaseBundleExtension : Type := mkExtension
  { m_pEngine : option IBundleExtensionEngine;
    m_sczBundleExtensionDataPath : LPWSTR;
    m_cReferences : Z }.

Definition set_m_cReferences (l : Z) (o : CBextBaseBundleExtension) :=
  mkExtension (m_pEngine o) (m_sczBundleExtensionDataPath o) l.
Definition set_m_pEngine (p : option IBundleExtensionEngine)
    (o : CBextBaseBundleExtension) :=
  mkExtension p (m_sczBundleExtensionDataPath o) (m_cReferences o).
Definition set_m_sczBundleExtensionDataPath (s : LPWSTR)
    (o : CBextBaseBundleExtension) :=
  mkExtension (m_pEngine o) s (m_cReferences o).

(** ** Computations: state with undefined behaviour *)

Definition M (S A : Type) : Type := S -> option (A * S).

Definition ret {S A} (a : A) : M S A := fun s => Some (a, s).
Definition undefined {S A} : M S A := fun _ => None.
Definition bind {S A B} (m : M S A) (k : A -> M S B) : M S B :=
  fun s => match m s with
           | Some (a, s') => k a s'
           | None => None
           end.

Declare Scope comp_scope.
Delimit Scope comp_scope with comp.
Notation "x <- m ;; k" := (bind m (fun x => k))
  (at level 61, m at next level, right associativity) : comp_scope.
Notation "m ;; k" := (bind m (fun _ => k))
  (at level 61, right associativity) : comp_scope.

(** ** An allocator to run the model with

    The string routines are parameters of the development (see below).
    To evaluate the model on concrete inputs they are instantiated with
    an allocator whose heap is a budget of wide characters: a copy of a
    string of [n] characters takes [n + 1] of them and is refused with
    [E_OUTOFMEMORY] when fewer are left; a refused copy leaves the
    destination as it was. *)

Definition budget_StrAllocString (dst : LPWSTR) (src : LPCWSTR) (cch : Z)
    (free : Z) : HRESULT * LPWSTR * Z :=
  match src with
  | None => (E_INVALIDARG, dst, free)
  | Some s =>
      let s' := if cch =? 0 then s else substring 0 (Z.to_nat cch) s in
      let need := Z.of_nat (String.length s') + 1 in
      if need <=? free then (S_OK, Some s', free - need)
      else (E_OUTOFMEMORY, dst, free)
  end.

Definition budget_StrFree (s : wstring) (free : Z) : Z :=
  free + Z.of_nat (String.length s) + 1.

(** An interface identifier to instantiate [IID_IBundleExtension] with
    when the model is run. *)
Definition sample_IID_IBundleExtension : GUID :=
  mkGUID 0x93123C9D 0x796B 0x4FCD [0xA5; 0x07; 0x6E; 0xDE; 0xF9; 0xA9; 0x25; 0xFD].

Section Extension.

Local Open Scope comp_scope.

(** ** What the header takes from elsewhere

    [StrAllocString] and [StrFree] belong to dutil's strutil and the
    interface identifier of [IBundleExtension] is declared in
    IBundleExtension.h; none of them is among the sources.  They are parameters
    of the development, and so is the state [Heap] of the allocator that
    the two string routines work on.

    [StrAllocString dst src cch h] is given the content of the destination
    variable, the source pointer and the length argument, and yields the
    status, the new content of the destination variable and the new heap.
    [StrFree s h] is the heap after the string [s] has been given back. *)

Variable Heap : Type.
Variable StrAllocString :
  LPWSTR -> LPCWSTR -> Z -> Heap -> HRESULT * LPWSTR * Heap.
Variable StrFree : wstring -> Heap -> Heap.
Variable IID_IBundleExtension : GUID.

(** ** The world

    [this] is the storage of the one extension object: [None] before
    [new] and after [delete].  [engine_refs] is the reference count of
    the host engine.  [dtor_runs] is a ghost counter of the runs of the
    destructor. *)

Record World : Type := mkWorld
  { this : option CBextBaseBundleExtension;
    engine_refs : Z;
    heap : Heap;
    dtor_runs : nat }.

(** Reading [this]: a member function entered through a deleted object
    has no defined behaviour. *)
Definition get_this : M World CBextBaseBundleExtension :=
  fun w => match this w with
           | Some o => Some (o, w)
           | None => None
           end.

Definition put_this (o : CBextBaseBundleExtension) : M World unit :=
  fun w => Some (tt, mkWorld (Some o) (engine_refs w) (heap w) (dtor_runs w)).

Definition get_heap : M World Heap := fun w => Some (heap w, w).

Definition put_heap (h : Heap) : M World unit :=
  fun w => Some (tt, mkWorld (this w) (engine_refs w) h (dtor_runs w)).

(** [pEngine->AddRef()] and [pEngine->Release()] on the host engine. *)
Definition IBundleExtensionEngine_AddRef (e : IBundleExtensionEngine)
    : M World Z :=
  fun w => Some (engine_refs w + 1,
                 mkWorld (this w) (engine_refs w + 1) (heap w) (dtor_runs w)).

Definition IBundleExtensionEngine_Release (e : IBundleExtensionEngine)
    : M World Z :=
  fun w => Some (engine_refs w - 1,
                 mkWorld (this w) (engine_refs w - 1) (heap w) (dtor_runs w)).

(** ** IUnknown *)

Definition AddRef : M World Z :=
  o <- get_this ;;
  let l := InterlockedIncrement (m_cReferences o) in
  put_this (set_m_cReferences l o) ;;
  ret (to_ULONG l).

Definition QueryInterface (riid : GUID) (ppvObject : option LPVOID)
    : M World (HRESULT * option LPVOID) :=
  _ <- get_this ;;
  match ppvObject with
  | None => ret (E_INVALIDARG, None)
  | Some _ =>
      (* *ppvObject = NULL; *)
      let cleared : LPVOID := None in
      if IsEqualIID IID_IBundleExtension riid then
        let slot := Some (static_cast_this I_IBundleExtension) in
        AddRef ;; ret (S_OK, Some slot)
      else if IsEqualIID IID_IUnknown riid then
        let slot := Some (static_cast_this I_IUnknown) in
        AddRef ;; ret (S_OK, Some slot)
      else (* no interface for requested iid *)
        ret (E_NOINTERFACE, Some cleared)
  end.

(** The destructor.  [ReleaseNullObject(x)] is
    [if (x) { x->Release(); x = NULL; }] and [ReleaseStr(pwz)] is
    [if (pwz) { StrFree(pwz); }] (dutil.h and strutil.h). *)
Definition destructor : M World unit :=
  o <- get_this ;;
  match m_pEngine o with
  | Some e =>
      IBundleExtensionEngine_Release e ;;
      put_this (set_m_pEngine None o)
  | None => ret tt
  end ;;
  match m_sczBundleExtensionDataPath o with
  | Some s => h <- get_heap ;; put_heap (StrFree s h)
  | None => ret tt
  end ;;
  fun w => Some (tt, mkWorld (this w) (engine_refs w) (heap w) (S (dtor_runs w))).

(** [delete this]: the destructor, then the storage is gone. *)
Definition delete_this : M World unit :=
  destructor ;;
  fun w => Some (tt, mkWorld None (engine_refs w) (heap w) (dtor_runs w)).

Definition Release : M World Z :=
  o <- get_this ;;
  let l := InterlockedDecrement (m_cReferences o) in
  put_this (set_m_cReferences l o) ;;
  if 0 <? l then ret (to_ULONG l)
  else delete_this ;; ret 0.

(** ** IBundleExtension *)

Definition Search (wzId wzVariable : LPCWSTR) : M World HRESULT :=
  _ <- get_this ;;
  ret E_NOTIMPL.

Definition BundleExtensionProc (message : Z)
    (pvArgs pvResults pvContext : Address) : M World HRESULT :=
  _ <- get_this ;;
  ret E_NOTIMPL.

(** ** CBextBaseBundleExtension

    [pCreateArgs->wzBundleExtensionDataPath] reads through the pointer
    with no test before it.  [ExitOnFailure(hr, ...)] is
    [if (FAILED(hr)) { trace; goto LExit; }]; the label follows at once,
    so both ways reach [return hr]. *)
Definition Initialize (pCreateArgs : option BUNDLE_EXTENSION_CREATE_ARGS)
    : M World HRESULT :=
  o <- get_this ;;
  match pCreateArgs with
  | None => undefined
  | Some args =>
      h <- get_heap ;;
      let '(hr, dst, h') :=
        StrAllocString (m_sczBundleExtensionDataPath o)
                       (wzBundleExtensionDataPath args) 0 h in
      put_this (set_m_sczBundleExtensionDataPath dst o) ;;
      put_heap h' ;;
      if FAILED hr then ret hr (* goto LExit *)
      else ret hr
  end.

(** The constructor, run on the storage that [new] has just provided.
    [pEngine->AddRef()] reads through [pEngine] with no test before it. *)
Definition constructor (pEngine : option IBundleExtensionEngine)
    : M World unit :=
  match pEngine with
  | None => undefined
  | Some e =>
      IBundleExtensionEngine_AddRef e ;;
      put_this (mkExtension (Some e) None 1)
  end.

(** The world before the object exists: engine count [R], heap [h]. *)
Definition initial_world (R : Z) (h : Heap) : World := mkWorld None R h 0.

(** The world right after construction on an engine whose count was [R]. *)
Definition constructed (R : Z) (h : Heap) : World :=
  mkWorld (Some (mkExtension (Some HostEngine) None 1)) (R + 1) h 0.

(** ** Sequences of calls made by the holders of the object *)

Inductive Call : Type :=
| CallQueryInterface (riid : GUID) (ppvObject : option LPVOID)
| CallAddRef
| CallRelease
| CallSearch (wzId wzVariable : LPCWSTR)
| CallBundleExtensionProc (message : Z) (pvArgs pvResults pvContext : Address)
| CallInitialize (pCreateArgs : option BUNDLE_EXTENSION_CREATE_ARGS).

(** What a call gives back to its caller. *)
Inductive Result : Type :=
| ResultQuery (hr : HRESULT) (slot : option LPVOID)
| ResultCount (n : Z)
| ResultStatus (hr : HRESULT).

Definition call (c : Call) : M World Result :=
  match c with
  | CallQueryInterface riid ppv =>
      r <- QueryInterface riid ppv ;; ret (ResultQuery (fst r) (snd r))
  | CallAddRef => n <- AddRef ;; ret (ResultCount n)
  | CallRelease => n <- Release ;; ret (ResultCount n)
  | CallSearch a b => hr <- Search a b ;; ret (ResultStatus hr)
  | CallBundleExtensionProc m a r c =>
      hr <- BundleExtensionProc m a r c ;; ret (ResultStatus hr)
  | CallInitialize p => hr <- Initialize p ;; ret (ResultStatus hr)
  end.

(** The calls of [t] one after the other; the results in call order. *)
Fixpoint run (t : list Call) : M World (list Result) :=
  match t with
  | [] => ret []
  | c :: t' => r <- call c ;; rs <- run t' ;; ret (r :: rs)
  end.

(** ** Counting the calls of a sequence *)

(** Whether a [QueryInterface] call hands out a reference: the slot is
    there and the identifier is one of the two the object knows. *)
Definition qi_succeeds (riid : GUID) (ppvObject : option LPVOID) : bool :=
  match ppvObject with
  | None => false
  | Some _ => IsEqualIID IID_IBundleExtension riid || IsEqualIID IID_IUnknown riid
  end.

Definition increment_of (c : Call) : Z :=
  match c with
  | CallAddRef => 1
  | CallQueryInterface riid ppv => if qi_succeeds riid ppv then 1 else 0
  | _ => 0
  end.

Definition release_of (c : Call) : Z :=
  match c with
  | CallRelease => 1
  | _ => 0
  end.

(** The increments made by the calls of [t]: one per [AddRef] and one per
    successful [QueryInterface].  The one of the constructor is not in. *)
Fixpoint increments (t : list Call) : Z :=
  match t with
  | [] => 0
  | c :: t' => increment_of c + increments t'
  end.

Fixpoint releases (t : list Call) : Z :=
  match t with
  | [] => 0
  | c :: t' => release_of c + releases t'
  end.

(** References outstanding after [t] on a fresh object, counted in [Z]. *)
Definition outstanding (t : list Call) : Z := 1 + increments t - releases t.

(** No prefix of [t] takes a count that starts at [c] above [LONG_MAX]. *)
Fixpoint within_long_from (c : Z) (t : list Call) : bool :=
  match t with
  | [] => true
  | x :: t' =>
      let c' := c + increment_of x - release_of x in
      (c' <=? LONG_MAX) && within_long_from c' t'
  end.

Definition within_long (t : list Call) : bool := within_long_from 1 t.

(** The count that a call leaves in an object whose count was [v]. *)
Definition next_count (c : Call) (v : Z) : Z :=
  match c with
  | CallRelease => InterlockedDecrement v
  | CallAddRef => InterlockedIncrement v
  | CallQueryInterface riid ppv =>
      if qi_succeeds riid ppv then InterlockedIncrement v else v
  | _ => v
  end.

(** Calls whose arguments the callee can read: [Initialize] needs a
    creation-arguments structure. *)
Definition readable_args (c : Call) : bool :=
  match c with
  | CallInitialize None => false
  | _ => true
  end.

Definition is_Initialize (c : Call) : bool :=
  match c with
  | CallInitialize _ => true
  | _ => false
  end.

(** What the reference counting sees of a world: the count and the
    engine pointer of the object if it is there, the count of the engine
    and the runs of the destructor.  The data path and the heap are left
    out. *)
Definition refcount_view (w : World)
    : option (Z * option IBundleExtensionEngine) * Z * nat :=
  (match this w with
   | Some o => Some (m_cReferences o, m_pEngine o)
   | None => None
   end,
   engine_refs w, dtor_runs w).

(** Modelled from the spec: the contract of [StrAllocString], which is not
    among the sources.  It "deep-copies the data-path string into the object's
    own storage" and "fails with AllocationFailure/CopyFailure if the
    string copy cannot complete": a call on a source string either gives
    [S_OK] and leaves a copy of the source in the destination, or gives a
    failure status. *)
Definition StrAllocString_copies : Prop :=
  forall (dst : LPWSTR) (s : wstring) (h : Heap),
    let '(hr, dst', _) := StrAllocString dst (Some s) 0 h in
    (hr = S_OK /\ dst' = Some s) \/ FAILED hr = true.

(** The object has been destroyed by [t] only if [t] has as many
    [Release] calls as increments, the one of the constructor included. *)
Definition destroyed_only_when_balanced (R : Z) (h : Heap) (t : list Call)
    : Prop :=
  forall rs w, run t (constructed R h) = Some (rs, w) ->
               this w = None -> releases t = 1 + increments t.


(** The allocator law that pairs [ReleaseStr] in the destructor with
    [StrAllocString] in [Initialize]: whatever a copy into an empty
    destination has left there, giving it back (or nothing, if the
    destination is still [NULL]) puts the heap back as it was. *)
Definition StrFree_undoes_StrAllocString : Prop :=
  forall (src : LPCWSTR) (h : Heap),
    let '(_, dst, h') := StrAllocString None src 0 h in
    match dst with
    | Some s => StrFree s h' = h
    | None => h' = h
    end.

(** * Properties *)

(** ** Arithmetic of the count *)

Lemma wrap_long_id (z : Z) : LONG_MIN <= z <= LONG_MAX -> wrap_long z = z.
Proof.
  unfold wrap_long, LONG_MIN, LONG_MAX. intros Hz.
  rewrite Z.mod_small by lia. lia.
Qed.

Lemma wrap_long_range (z : Z) : LONG_MIN <= wrap_long z <= LONG_MAX.
Proof.
  unfold wrap_long, LONG_MIN, LONG_MAX.
  pose proof (Z.mod_pos_bound (z + 2147483648) 4294967296 ltac:(lia)). lia.
Qed.

Lemma InterlockedIncrement_below_max (v : Z) :
  LONG_MIN <= v < LONG_MAX -> InterlockedIncrement v = v + 1.
Proof.
  intros Hv. unfold InterlockedIncrement. apply wrap_long_id.
  unfold LONG_MIN, LONG_MAX in *. lia.
Qed.

Lemma InterlockedDecrement_above_min (v : Z) :
  LONG_MIN < v <= LONG_MAX -> InterlockedDecrement v = v - 1.
Proof.
  intros Hv. unfold InterlockedDecrement. apply wrap_long_id.
  unfold LONG_MIN, LONG_MAX in *. lia.
Qed.

Lemma to_ULONG_positive (l : Z) : 0 < l -> l <= LONG_MAX -> to_ULONG l = l.
Proof.
  unfold to_ULONG, LONG_MAX. intros. apply Z.mod_small. lia.
Qed.

Lemma to_ULONG_InterlockedDecrement (v : Z) :
  0 < InterlockedDecrement v ->
  to_ULONG (InterlockedDecrement v) = InterlockedDecrement v.
Proof.
  intros Hl. apply to_ULONG_positive; [assumption|].
  apply wrap_long_range.
Qed.

(** ** Interface identifiers *)

Lemma bytes_eqb_eq (a b : list Z) : bytes_eqb a b = true <-> a = b.
Proof.
  revert b. induction a as [|x a IH]; intros [|y b]; simpl;
    try (split; [discriminate | congruence]); [tauto|].
  rewrite andb_true_iff, Z.eqb_eq, IH. split.
  - intros [-> ->]. reflexivity.
  - intros E. inversion E. tauto.
Qed.

Lemma IsEqualIID_eq (a b : GUID) : IsEqualIID a b = true <-> a = b.
Proof.
  unfold IsEqualIID. rewrite !andb_true_iff, !Z.eqb_eq, bytes_eqb_eq.
  destruct a, b; simpl. split.
  - intros [[[-> ->] ->] ->]. reflexivity.
  - intros E. inversion E. tauto.
Qed.

Lemma IsEqualIID_neq (a b : GUID) : IsEqualIID a b = false <-> a <> b.
Proof.
  rewrite <- IsEqualIID_eq. destruct (IsEqualIID a b); split; congruence.
Qed.

(** ** The calls on an object that is there *)

Lemma AddRef_live (o : CBextBaseBundleExtension) e h d :
  AddRef (mkWorld (Some o) e h d) =
  Some (to_ULONG (InterlockedIncrement (m_cReferences o)),
        mkWorld (Some (set_m_cReferences
                         (InterlockedIncrement (m_cReferences o)) o)) e h d).
Proof. reflexivity. Qed.

(** The world that [delete this] leaves behind. *)
Lemma delete_this_live (o : CBextBaseBundleExtension) e h d :
  delete_this (mkWorld (Some o) e h d) =
  Some (tt, mkWorld None
              (match m_pEngine o with Some _ => e - 1 | None => e end)
              (match m_sczBundleExtensionDataPath o with
               | Some s => StrFree s h
               | None => h
               end)
              (S d)).
Proof.
  destruct o as [[[]|] [s|] c]; reflexivity.
Qed.

Lemma Release_live (o : CBextBaseBundleExtension) e h d :
  Release (mkWorld (Some o) e h d) =
  let l := InterlockedDecrement (m_cReferences o) in
  if 0 <? l
  then Some (to_ULONG l, mkWorld (Some (set_m_cReferences l o)) e h d)
  else Some (0, mkWorld None
                  (match m_pEngine o with Some _ => e - 1 | None => e end)
                  (match m_sczBundleExtensionDataPath o with
                   | Some s => StrFree s h
                   | None => h
                   end)
                  (S d)).
Proof.
  unfold Release, bind, get_this; cbn [this].
  cbv zeta. unfold put_this; cbn [engine_refs heap dtor_runs].
  destruct (0 <? InterlockedDecrement (m_cReferences o)); [reflexivity|].
  unfold bind.
  rewrite (delete_this_live (set_m_cReferences _ o)). reflexivity.
Qed.

Lemma QueryInterface_live (riid : GUID) (ppv : option LPVOID)
    (o : CBextBaseBundleExtension) e h d :
  QueryInterface riid ppv (mkWorld (Some o) e h d) =
  match ppv with
  | None => Some ((E_INVALIDARG, None), mkWorld (Some o) e h d)
  | Some _ =>
      let w' := mkWorld (Some (set_m_cReferences
                   (InterlockedIncrement (m_cReferences o)) o)) e h d in
      if IsEqualIID IID_IBundleExtension riid
      then Some ((S_OK, Some (Some (static_cast_this I_IBundleExtension))), w')
      else if IsEqualIID IID_IUnknown riid
      then Some ((S_OK, Some (Some (static_cast_this I_IUnknown))), w')
      else Some ((E_NOINTERFACE, Some None), mkWorld (Some o) e h d)
  end.
Proof.
  unfold QueryInterface, bind, get_this; cbn [this].
  destruct ppv as [v|]; [|reflexivity].
  destruct (IsEqualIID IID_IBundleExtension riid); [reflexivity|].
  destruct (IsEqualIID IID_IUnknown riid); reflexivity.
Qed.

Lemma Initialize_live (args : BUNDLE_EXTENSION_CREATE_ARGS)
    (o : CBextBaseBundleExtension) e h d :
  Initialize (Some args) (mkWorld (Some o) e h d) =
  let '(hr, dst, h') :=
    StrAllocString (m_sczBundleExtensionDataPath o)
                   (wzBundleExtensionDataPath args) 0 h in
  Some (hr, mkWorld (Some (set_m_sczBundleExtensionDataPath dst o)) e h' d).
Proof.
  unfold Initialize, bind, get_this, get_heap; cbn [this heap].
  destruct (StrAllocString _ _ 0 h) as [[hr dst] h'].
  unfold put_this, put_heap; cbn.
  destruct (FAILED hr); reflexivity.
Qed.

(** A [QueryInterface] call is counted as an increment exactly when it
    returns [S_OK]. *)
Lemma qi_succeeds_iff_S_OK (riid : GUID) (ppv : option LPVOID)
    (o : CBextBaseBundleExtension) e h d hr slot w' :
  QueryInterface riid ppv (mkWorld (Some o) e h d) = Some ((hr, slot), w') ->
  (qi_succeeds riid ppv = true <-> hr = S_OK).
Proof.
  rewrite QueryInterface_live. unfold qi_succeeds.
  destruct ppv as [v|].
  - cbv zeta. destruct (IsEqualIID IID_IBundleExtension riid);
      [|destruct (IsEqualIID IID_IUnknown riid)];
      intros E; inversion E; subst; cbn; split; congruence || discriminate.
  - intros E; inversion E; subst. split; discriminate.
Qed.

(** Every member function entered through a deleted object is undefined. *)
Lemma call_deleted (c : Call) e h d : call c (mkWorld None e h d) = None.
Proof. destruct c; reflexivity. Qed.

Lemma world_eta (w : World) :
  w = mkWorld (this w) (engine_refs w) (heap w) (dtor_runs w).
Proof. destruct w; reflexivity. Qed.

(** ** Release *)

(** C1.  [Release] decrements the count with [InterlockedDecrement] (one
    less, for every count above [LONG_MIN]).  If the new count is above
    zero, it is returned and the object stays, with nothing but the count
    changed.  If the new count is zero, the destructor runs once (the
    engine reference is released, the data path is freed), the object is
    gone and zero is returned. *)
Theorem Release_returns_count_or_destroys
    (w : World) (o : CBextBaseBundleExtension) :
  this w = Some o ->
  let l := InterlockedDecrement (m_cReferences o) in
  (LONG_MIN < m_cReferences o <= LONG_MAX -> l = m_cReferences o - 1) /\
  (0 < l ->
   Release w =
   Some (l, mkWorld (Some (set_m_cReferences l o))
              (engine_refs w) (heap w) (dtor_runs w))) /\
  (l = 0 ->
   Release w =
   Some (0, mkWorld None
              (match m_pEngine o with
               | Some _ => engine_refs w - 1
               | None => engine_refs w
               end)
              (match m_sczBundleExtensionDataPath o with
               | Some s => StrFree s (heap w)
               | None => heap w
               end)
              (S (dtor_runs w)))).
Proof.
  intros Hthis l. split; [|split].
  - apply InterlockedDecrement_above_min.
  - intros Hl. rewrite (world_eta w), Hthis, Release_live. cbv zeta. fold l.
    apply Z.ltb_lt in Hl as Hb. rewrite Hb.
    unfold l. rewrite to_ULONG_InterlockedDecrement by exact Hl. reflexivity.
  - intros Hl. rewrite (world_eta w) at 1. rewrite Hthis, Release_live.
    cbv zeta. fold l. rewrite Hl. reflexivity.
Qed.

(** ** QueryInterface *)

(** C3.  With a null output slot, [QueryInterface] returns [E_INVALIDARG]
    for every interface identifier and leaves the whole world as it was:
    the count, the other fields of the object, the engine and the heap. *)
Theorem QueryInterface_null_slot_E_INVALIDARG
    (riid : GUID) (w : World) (o : CBextBaseBundleExtension) :
  this w = Some o ->
  QueryInterface riid None w = Some ((E_INVALIDARG, None), w).
Proof.
  intros Hthis. rewrite (world_eta w), Hthis, QueryInterface_live.
  reflexivity.
Qed.

(** C4.  With an output slot: for the identifier of [IBundleExtension] or
    of [IUnknown], [QueryInterface] returns [S_OK], the slot holds a cast
    of [this], and the count has gone through one [InterlockedIncrement]
    (one more, for every count below [LONG_MAX]) with nothing else
    changed; for any other identifier it returns [E_NOINTERFACE], the slot
    holds [NULL] and the world is as it was. *)
Theorem QueryInterface_known_or_E_NOINTERFACE
    (riid : GUID) (v : LPVOID) (w : World) (o : CBextBaseBundleExtension) :
  this w = Some o ->
  (riid = IID_IBundleExtension \/ riid = IID_IUnknown ->
   QueryInterface riid (Some v) w =
   Some ((S_OK,
          Some (Some (static_cast_this
                        (if IsEqualIID IID_IBundleExtension riid
                         then I_IBundleExtension else I_IUnknown)))),
         mkWorld (Some (set_m_cReferences
                          (InterlockedIncrement (m_cReferences o)) o))
                 (engine_refs w) (heap w) (dtor_runs w)) /\
   (LONG_MIN <= m_cReferences o < LONG_MAX ->
    InterlockedIncrement (m_cReferences o) = m_cReferences o + 1)) /\
  (riid <> IID_IBundleExtension -> riid <> IID_IUnknown ->
   QueryInterface riid (Some v) w = Some ((E_NOINTERFACE, Some None), w)).
Proof.
  intros Hthis. split.
  - intros Hriid. destruct w as [t e h d]; cbn in Hthis; subst t.
    cbn [engine_refs heap dtor_runs]. rewrite QueryInterface_live. cbv zeta.
    split; [|apply InterlockedIncrement_below_max].
    destruct (IsEqualIID IID_IBundleExtension riid) eqn:E1; [reflexivity|].
    destruct Hriid as [-> | ->].
    + apply IsEqualIID_neq in E1. congruence.
    + replace (IsEqualIID IID_IUnknown IID_IUnknown) with true
        by (symmetry; apply IsEqualIID_eq; reflexivity).
      reflexivity.
  - intros N1 N2.
    rewrite (world_eta w), Hthis, QueryInterface_live.
    replace (IsEqualIID IID_IBundleExtension riid) with false
      by (symmetry; apply IsEqualIID_neq; congruence).
    replace (IsEqualIID IID_IUnknown riid) with false
      by (symmetry; apply IsEqualIID_neq; congruence).
    reflexivity.
Qed.

(** ** The extension points *)

(** C5.  The base-class [Search] and [BundleExtensionProc] return
    [E_NOTIMPL] for every argument and leave the whole world as it was. *)
Theorem Search_BundleExtensionProc_E_NOTIMPL
    (wzId wzVariable : LPCWSTR) (message : Z)
    (pvArgs pvResults pvContext : Address)
    (w : World) (o : CBextBaseBundleExtension) :
  this w = Some o ->
  Search wzId wzVariable w = Some (E_NOTIMPL, w) /\
  BundleExtensionProc message pvArgs pvResults pvContext w
  = Some (E_NOTIMPL, w).
Proof.
  intros Hthis. unfold Search, BundleExtensionProc, bind, get_this.
  rewrite Hthis. split; reflexivity.
Qed.

(** ** Initialize *)

(** C6.  Under the contract of the string copy, [Initialize] on a
    creation-arguments structure with the data path [s] returns the
    status of the copy: either [S_OK], and the object then holds exactly
    [s] as its data path, or the failure status of the copy.  The count
    and the engine pointer of the object are not touched. *)
Theorem Initialize_copies_data_path
    (s : wstring) (w : World) (o : CBextBaseBundleExtension) :
  StrAllocString_copies ->
  this w = Some o ->
  exists (hr : HRESULT) (dst : LPWSTR) (h' : Heap),
    StrAllocString (m_sczBundleExtensionDataPath o) (Some s) 0 (heap w)
    = (hr, dst, h') /\
    Initialize (Some (mkCreateArgs (Some s))) w =
    Some (hr, mkWorld (Some (set_m_sczBundleExtensionDataPath dst o))
                (engine_refs w) h' (dtor_runs w)) /\
    ((hr = S_OK /\ dst = Some s) \/ FAILED hr = true).
Proof.
  intros Hcopy Hthis.
  destruct w as [t e h d]; cbn in Hthis; subst t.
  cbn [engine_refs heap dtor_runs].
  rewrite Initialize_live. cbn [wzBundleExtensionDataPath].
  specialize (Hcopy (m_sczBundleExtensionDataPath o) s h).
  destruct (StrAllocString (m_sczBundleExtensionDataPath o) (Some s) 0 h)
    as [[hr dst] h'].
  exists hr, dst, h'. repeat split; assumption.
Qed.

(** C9.  [Initialize] reads through its argument with no test: on a null
    creation-arguments pointer it has no defined behaviour, in every
    world, while on a structure it always returns; [QueryInterface], for
    its part, answers a null output slot with [E_INVALIDARG]. *)
Theorem Initialize_null_args_undefined :
  (forall w : World, Initialize None w = None) /\
  (forall (args : BUNDLE_EXTENSION_CREATE_ARGS)
          (o : CBextBaseBundleExtension) e h d,
     exists hr w', Initialize (Some args) (mkWorld (Some o) e h d)
                   = Some (hr, w')) /\
  (forall (riid : GUID) (o : CBextBaseBundleExtension) e h d,
     QueryInterface riid None (mkWorld (Some o) e h d)
     = Some ((E_INVALIDARG, None), mkWorld (Some o) e h d)).
Proof.
  split; [|split].
  - intros [[o|] e h d]; reflexivity.
  - intros args o e h d. rewrite Initialize_live.
    destruct (StrAllocString _ _ 0 h) as [[hr dst] h']. eauto.
  - intros. apply QueryInterface_live.
Qed.

(** C10.  The status and the slot content that [QueryInterface] gives
    depend on the identifier and on whether there is a slot, not on the
    state of the object, of the engine or of the heap, nor on what the
    slot held before. *)
Theorem QueryInterface_status_independent_of_state
    (riid : GUID) (o1 o2 : CBextBaseBundleExtension)
    (e1 e2 : Z) (h1 h2 : Heap) (d1 d2 : nat) :
  (exists w1' w2',
     QueryInterface riid None (mkWorld (Some o1) e1 h1 d1)
     = Some ((E_INVALIDARG, None), w1') /\
     QueryInterface riid None (mkWorld (Some o2) e2 h2 d2)
     = Some ((E_INVALIDARG, None), w2')) /\
  (forall v1 v2 : LPVOID,
     exists hr slot w1' w2',
       QueryInterface riid (Some v1) (mkWorld (Some o1) e1 h1 d1)
       = Some ((hr, slot), w1') /\
       QueryInterface riid (Some v2) (mkWorld (Some o2) e2 h2 d2)
       = Some ((hr, slot), w2')).
Proof.
  split.
  - rewrite !QueryInterface_live. eauto.
  - intros v1 v2. rewrite !QueryInterface_live. cbv zeta.
    destruct (IsEqualIID IID_IBundleExtension riid); [eauto 6|].
    destruct (IsEqualIID IID_IUnknown riid); eauto 6.
Qed.

(** ** Sequences of calls *)

Lemma run_nil (w : World) : run [] w = Some ([], w).
Proof. reflexivity. Qed.

Lemma run_cons (c : Call) (t : list Call) (w : World) :
  run (c :: t) w =
  match call c w with
  | Some (r, w1) =>
      match run t w1 with
      | Some (rs, w2) => Some (r :: rs, w2)
      | None => None
      end
  | None => None
  end.
Proof.
  cbn [run]. unfold bind at 1. destruct (call c w) as [[r w1]|]; [|reflexivity].
  unfold bind, ret. destruct (run t w1) as [[rs w2]|]; reflexivity.
Qed.

Lemma run_app (t1 t2 : list Call) (w : World) :
  run (t1 ++ t2) w =
  match run t1 w with
  | Some (rs1, w1) =>
      match run t2 w1 with
      | Some (rs2, w2) => Some (rs1 ++ rs2, w2)
      | None => None
      end
  | None => None
  end.
Proof.
  revert w. induction t1 as [|c t1 IH]; intros w.
  - cbn [app]. rewrite run_nil. destruct (run t2 w) as [[rs2 w2]|]; reflexivity.
  - cbn [app]. rewrite !run_cons.
    destruct (call c w) as [[r w1]|]; [|reflexivity].
    rewrite IH. destruct (run t1 w1) as [[rs1 w1']|]; [|reflexivity].
    destruct (run t2 w1') as [[rs2 w2]|]; reflexivity.
Qed.

(** Once the object is gone, only the empty sequence is defined. *)
Lemma run_deleted (t : list Call) e h d rs w :
  run t (mkWorld None e h d) = Some (rs, w) ->
  t = [] /\ w = mkWorld None e h d.
Proof.
  destruct t as [|c t].
  - rewrite run_nil. intros E. inversion E. auto.
  - rewrite run_cons, call_deleted. discriminate.
Qed.

(** A call on an object that is there either leaves it there, with the
    engine pointer, the engine count and the destructor count as they
    were, or is the [Release] that deletes it. *)
Lemma call_live_shape (c : Call) (o : CBextBaseBundleExtension) e h d r w1 :
  call c (mkWorld (Some o) e h d) = Some (r, w1) ->
  (exists o1 h1, w1 = mkWorld (Some o1) e h1 d /\
                 m_pEngine o1 = m_pEngine o /\
                 m_cReferences o1 = next_count c (m_cReferences o) /\
                 (c = CallRelease -> 0 < next_count c (m_cReferences o))) \/
  (c = CallRelease /\
   next_count c (m_cReferences o) <= 0 /\
   exists h1, w1 = mkWorld None
                     (match m_pEngine o with Some _ => e - 1 | None => e end)
                     h1 (S d)).
Proof.
  destruct c as [riid ppv| | |a b|m a b c'|[args|]]; cbn [call next_count];
    unfold bind at 1.
  - rewrite QueryInterface_live. unfold ret, qi_succeeds.
    destruct ppv as [v|].
    + cbv zeta. destruct (IsEqualIID IID_IBundleExtension riid);
        [|destruct (IsEqualIID IID_IUnknown riid)];
        cbn [orb]; intros E; inversion E; subst; left;
        eexists; eexists; repeat split; discriminate.
    + intros E; inversion E; subst; left.
      eexists; eexists; repeat split; discriminate.
  - rewrite AddRef_live. unfold ret. intros E; inversion E; subst; left.
    eexists; eexists; repeat split; discriminate.
  - rewrite Release_live. cbv zeta.
    destruct (0 <? InterlockedDecrement (m_cReferences o)) eqn:Hl;
      unfold ret; intros E; inversion E; subst.
    + left. apply Z.ltb_lt in Hl.
      eexists; eexists; repeat split. intros _. exact Hl.
    + right. apply Z.ltb_ge in Hl. repeat split; [exact Hl|].
      eexists. reflexivity.
  - unfold Search, bind, get_this, ret; cbn [this].
    intros E; inversion E; subst; left.
    eexists; eexists; repeat split; discriminate.
  - unfold BundleExtensionProc, bind, get_this, ret; cbn [this].
    intros E; inversion E; subst; left.
    eexists; eexists; repeat split; discriminate.
  - rewrite Initialize_live.
    destruct (StrAllocString _ _ 0 h) as [[hr dst] h'].
    unfold ret. intros E; inversion E; subst; left.
    eexists; eexists; repeat split; discriminate.
  - unfold Initialize, bind, get_this; cbn [this]. discriminate.
Qed.

(** A call whose arguments can be read is defined on an object that is
    there. *)
Lemma call_live_defined (c : Call) (o : CBextBaseBundleExtension) e h d :
  readable_args c = true ->
  exists r w1, call c (mkWorld (Some o) e h d) = Some (r, w1).
Proof.
  destruct c as [riid ppv| | |a b|m a b c'|[args|]]; cbn [call readable_args];
    intros Hr; try discriminate; unfold bind at 1.
  - rewrite QueryInterface_live. destruct ppv as [v|]; [|unfold ret; eauto].
    cbv zeta. destruct (IsEqualIID IID_IBundleExtension riid);
      [|destruct (IsEqualIID IID_IUnknown riid)]; unfold ret; eauto.
  - rewrite AddRef_live. unfold ret; eauto.
  - rewrite Release_live. cbv zeta.
    destruct (0 <? InterlockedDecrement (m_cReferences o)); unfold ret; eauto.
  - unfold Search, bind, get_this, ret; cbn [this]. eauto.
  - unfold BundleExtensionProc, bind, get_this, ret; cbn [this]. eauto.
  - rewrite Initialize_live.
    destruct (StrAllocString _ _ 0 h) as [[hr dst] h']. unfold ret; eauto.
Qed.

(** While the count stays within [1 .. LONG_MAX], the stored count is the
    count in [Z]. *)
Lemma next_count_exact (c : Call) (v : Z) :
  0 < v <= LONG_MAX ->
  v + increment_of c - release_of c <= LONG_MAX ->
  next_count c v = v + increment_of c - release_of c.
Proof.
  unfold LONG_MAX. intros Hv Hc.
  destruct c as [riid ppv| | |a b|m a b c'|args];
    cbn [next_count increment_of release_of] in *; try lia.
  - destruct (qi_succeeds riid ppv); [|lia].
    rewrite InterlockedIncrement_below_max; unfold LONG_MIN, LONG_MAX; lia.
  - rewrite InterlockedIncrement_below_max; unfold LONG_MIN, LONG_MAX; lia.
  - rewrite InterlockedDecrement_above_min; unfold LONG_MIN, LONG_MAX; lia.
Qed.

Lemma next_count_live_positive (c : Call) (v : Z) :
  0 < v ->
  (c = CallRelease -> 0 < v + increment_of c - release_of c) ->
  0 < v + increment_of c - release_of c.
Proof.
  intros Hv Hr.
  destruct c as [riid ppv| | |a b|m a b c'|args];
    cbn [increment_of release_of] in *; try lia.
  - destruct (qi_succeeds riid ppv); lia.
  - apply Hr. reflexivity.
Qed.

Lemma snoc_singleton_prefix (A : Type) (c x : A) (p s : list A) :
  [c] = p ++ x :: s -> p = [].
Proof.
  destruct p as [|y p]; [reflexivity|].
  cbn. intros E. inversion E as [[E1 E2]]. destruct p; discriminate.
Qed.

(** The count of the object follows the count in [Z] as long as no prefix
    of the sequence takes it above [LONG_MAX]; the destructor runs when
    and only when that count comes to zero, and by then every earlier
    prefix has left references outstanding. *)
Lemma run_count_from (t : list Call) :
  forall (o : CBextBaseBundleExtension) e h d rs w',
    0 < m_cReferences o <= LONG_MAX ->
    within_long_from (m_cReferences o) t = true ->
    run t (mkWorld (Some o) e h d) = Some (rs, w') ->
    (forall p x s, t = p ++ x :: s ->
                   0 < m_cReferences o + increments p - releases p) /\
    match this w' with
    | Some o' =>
        m_cReferences o' = m_cReferences o + increments t - releases t /\
        0 < m_cReferences o' /\ dtor_runs w' = d
    | None =>
        m_cReferences o + increments t - releases t = 0 /\
        dtor_runs w' = S d /\ exists t', t = t' ++ [CallRelease]
    end.
Proof.
  induction t as [|c t IH]; intros o e h d rs w' Hv Hin Hrun.
  - rewrite run_nil in Hrun. inversion Hrun; subst. cbn. split.
    + intros [|y p] x s E; discriminate.
    + repeat split; lia.
  - rewrite run_cons in Hrun.
    destruct (call c (mkWorld (Some o) e h d)) as [[r w1]|] eqn:Ec;
      [|discriminate].
    destruct (run t w1) as [[rs1 w2]|] eqn:Er; [|discriminate].
    inversion Hrun; subst rs w2; clear Hrun.
    cbn [within_long_from] in Hin. apply andb_true_iff in Hin as [Hmax Hin].
    apply Z.leb_le in Hmax.
    apply call_live_shape in Ec.
    destruct Ec as [(o1 & h1 & -> & _ & Hc & Hr) | (-> & Hle & h1 & ->)].
    + rewrite next_count_exact in Hc, Hr by assumption.
      assert (Hpos : 0 < m_cReferences o + increment_of c - release_of c)
        by (apply next_count_live_positive; [lia | exact Hr]).
      rewrite <- Hc in Hin.
      destruct (IH o1 e h1 d rs1 w' ltac:(lia) Hin Er) as [Hpre Hfin].
      split.
      * intros [|y p] x s E.
        -- cbn. lia.
        -- cbn in E. inversion E; subst y t. cbn [increments releases].
           specialize (Hpre p x s eq_refl). lia.
      * cbn [increments releases].
        destruct (this w') as [o'|].
        -- destruct Hfin as (H1 & H2 & H3). repeat split; lia.
        -- destruct Hfin as (H1 & H2 & t' & ->). repeat split; try lia.
           exists (c :: t'). reflexivity.
    + rewrite next_count_exact in Hle by assumption.
      cbn [increment_of release_of] in Hle.
      apply run_deleted in Er as [-> ->]. cbn. split.
      * intros p x s E. apply snoc_singleton_prefix in E. subst p. cbn. lia.
      * repeat split; try lia. exists []. reflexivity.
Qed.

(** A sequence is defined as long as each call is made while references
    are outstanding and can read its arguments. *)
Lemma run_defined_from (t : list Call) :
  forall (o : CBextBaseBundleExtension) e h d,
    0 < m_cReferences o <= LONG_MAX ->
    within_long_from (m_cReferences o) t = true ->
    forallb readable_args t = true ->
    (forall p x s, t = p ++ x :: s ->
                   0 < m_cReferences o + increments p - releases p) ->
    exists rs w', run t (mkWorld (Some o) e h d) = Some (rs, w').
Proof.
  induction t as [|c t IH]; intros o e h d Hv Hin Hargs Hpre.
  - rewrite run_nil. eauto.
  - cbn [forallb] in Hargs. apply andb_true_iff in Hargs as [Hc Hargs].
    cbn [within_long_from] in Hin. apply andb_true_iff in Hin as [Hmax Hin].
    apply Z.leb_le in Hmax.
    destruct (call_live_defined c o e h d Hc) as (r & w1 & Ec).
    rewrite run_cons, Ec.
    apply call_live_shape in Ec.
    destruct Ec as [(o1 & h1 & -> & _ & Hcount & Hr) | (-> & Hle & h1 & ->)].
    + rewrite next_count_exact in Hcount, Hr by assumption.
      assert (Hpos : 0 < m_cReferences o + increment_of c - release_of c)
        by (apply next_count_live_positive; [lia | exact Hr]).
      rewrite <- Hcount in Hin.
      destruct (IH o1 e h1 d ltac:(lia) Hin Hargs) as (rs & w' & Er).
      * intros p x s E. subst t.
        specialize (Hpre (c :: p) x s eq_refl).
        cbn [increments releases] in Hpre. lia.
      * rewrite Er. eauto.
    + rewrite next_count_exact in Hle by assumption.
      destruct t as [|x s].
      * rewrite run_nil. eauto.
      * specialize (Hpre [CallRelease] x s eq_refl).
        cbn [increments releases] in Hpre. lia.
Qed.

(** Whatever the calls, the engine pointer stays as the constructor set it
    while the object is there, the engine count moves only when the
    destructor runs, and the destructor runs at most once. *)
Lemma run_engine_from (t : list Call) :
  forall (o : CBextBaseBundleExtension) e h d rs w',
    run t (mkWorld (Some o) e h d) = Some (rs, w') ->
    match this w' with
    | Some o' =>
        m_pEngine o' = m_pEngine o /\ engine_refs w' = e /\ dtor_runs w' = d
    | None =>
        engine_refs w' = (match m_pEngine o with Some _ => e - 1 | None => e end)
        /\ dtor_runs w' = S d
    end.
Proof.
  induction t as [|c t IH]; intros o e h d rs w' Hrun.
  - rewrite run_nil in Hrun. inversion Hrun; subst. cbn. auto.
  - rewrite run_cons in Hrun.
    destruct (call c (mkWorld (Some o) e h d)) as [[r w1]|] eqn:Ec;
      [|discriminate].
    destruct (run t w1) as [[rs1 w2]|] eqn:Er; [|discriminate].
    inversion Hrun; subst rs w2; clear Hrun.
    apply call_live_shape in Ec.
    destruct Ec as [(o1 & h1 & -> & He & _) | (-> & _ & h1 & ->)].
    + specialize (IH o1 e h1 d rs1 w' Er). rewrite He in IH. exact IH.
    + apply run_deleted in Er as [-> ->]. cbn. auto.
Qed.

(** ** The lifetime of the object *)

(** C2, within the range of the count.  Take any sequence of calls on a
    fresh object that never has more than [LONG_MAX] references
    outstanding.  If the
    sequence is defined, then every call in it was made while references
    were outstanding; the object is gone at the end exactly when the
    [Release] calls equal the increments (the one of the constructor, one
    per [AddRef], one per successful [QueryInterface]); in that case the
    destructor has run once and the last call is the [Release] that
    reached the balance; otherwise the destructor has not run.  And the
    sequence is defined whenever each call is made while references are
    outstanding and can read its arguments. *)
Theorem destroyed_once_at_balance (R : Z) (h : Heap) (t : list Call) :
  within_long t = true ->
  (forall rs w,
     run t (constructed R h) = Some (rs, w) ->
     (forall p x s, t = p ++ x :: s -> 0 < outstanding p) /\
     (this w = None <-> releases t = 1 + increments t) /\
     (this w = None ->
      dtor_runs w = 1%nat /\ exists t', t = t' ++ [CallRelease]) /\
     (this w <> None -> dtor_runs w = 0%nat)) /\
  (forallb readable_args t = true ->
   (forall p x s, t = p ++ x :: s -> 0 < outstanding p) ->
   exists rs w, run t (constructed R h) = Some (rs, w)).
Proof.
  intros Hin. unfold within_long in Hin. unfold constructed. split.
  - intros rs w Hrun.
    apply run_count_from in Hrun;
      [|cbn; unfold LONG_MAX; lia | exact Hin].
    cbn [m_cReferences] in Hrun. destruct Hrun as [Hpre Hfin].
    split; [exact Hpre|].
    destruct (this w) as [o'|].
    + destruct Hfin as (H1 & H2 & H3). repeat split; try congruence.
      intros E. lia.
    + destruct Hfin as (H1 & H2 & H3). repeat split; auto; try lia.
      congruence.
  - intros Hargs Hpre.
    apply run_defined_from; try assumption. cbn; unfold LONG_MAX; lia.
Qed.

(** ** The reference to the host engine *)

(** C7.  The constructor has no defined behaviour on a null engine
    pointer; on the engine it adds one to its count, from [R] to [R + 1],
    and stores the pointer, which is thus not null.  Through
    any sequence of calls the pointer stays in place and the engine count
    stays at [R + 1] while the object is there, and once the object is
    gone the destructor has run once and the engine count is back at [R].
    In particular two [AddRef] calls return 2 and 3, three [Release] calls
    then return 2, 1 and 0, the object is there after the second and gone
    after the third, with the engine count back at [R]. *)
Theorem engine_reference_balanced (R : Z) (h : Heap) :
  constructor None (initial_world R h) = None /\
  constructor (Some HostEngine) (initial_world R h)
  = Some (tt, constructed R h) /\
  engine_refs (initial_world R h) = R /\
  engine_refs (constructed R h) = R + 1 /\
  this (constructed R h) = Some (mkExtension (Some HostEngine) None 1) /\
  (forall t rs w,
     run t (constructed R h) = Some (rs, w) ->
     match this w with
     | Some o =>
         m_pEngine o = Some HostEngine /\ engine_refs w = R + 1 /\
         dtor_runs w = 0%nat
     | None => engine_refs w = R /\ dtor_runs w = 1%nat
     end) /\
  (exists w,
     run [CallAddRef; CallAddRef; CallRelease; CallRelease]
         (constructed R h)
     = Some ([ResultCount 2; ResultCount 3; ResultCount 2; ResultCount 1], w)
     /\ this w = Some (mkExtension (Some HostEngine) None 1)
     /\ engine_refs w = R + 1 /\ dtor_runs w = 0%nat) /\
  (exists w,
     run [CallAddRef; CallAddRef; CallRelease; CallRelease; CallRelease]
         (constructed R h)
     = Some ([ResultCount 2; ResultCount 3;
              ResultCount 2; ResultCount 1; ResultCount 0], w)
     /\ this w = None /\ engine_refs w = R /\ dtor_runs w = 1%nat).
Proof.
  repeat split.
  - intros t rs w Hrun. apply run_engine_from in Hrun.
    cbn [m_pEngine] in Hrun. destruct (this w); [exact Hrun|].
    destruct Hrun as [H1 H2]. split; [lia | exact H2].
  - exists (mkWorld (Some (mkExtension (Some HostEngine) None 1))
                    (R + 1) h 0%nat).
    split; [vm_compute; reflexivity | repeat split].
  - exists (mkWorld None (R + 1 - 1) h 1%nat).
    split; [vm_compute; reflexivity | cbn; repeat split; lia].
Qed.

(** ** Calls that fail *)

Lemma call_same_view (c : Call) (w1 w2 : World) :
  is_Initialize c = false ->
  refcount_view w1 = refcount_view w2 ->
  match call c w1, call c w2 with
  | Some (r1, w1'), Some (r2, w2') =>
      r1 = r2 /\ refcount_view w1' = refcount_view w2'
  | None, None => True
  | _, _ => False
  end.
Proof.
  intros Hc Hv.
  destruct w1 as [[[p1 s1 c1]|] e1 h1 d1], w2 as [[[p2 s2 c2]|] e2 h2 d2];
    unfold refcount_view in Hv; cbn in Hv; inversion Hv; subst;
    [|rewrite !call_deleted; exact I].
  destruct c as [riid ppv| | |a b|m a b c'|args]; try discriminate;
    cbn [call]; unfold bind.
  - rewrite !QueryInterface_live. destruct ppv as [v|]; [|cbn; auto].
    cbv zeta. destruct (IsEqualIID IID_IBundleExtension riid);
      [|destruct (IsEqualIID IID_IUnknown riid)]; cbn; auto.
  - rewrite !AddRef_live. cbn. auto.
  - rewrite !Release_live. cbv zeta. cbn [m_cReferences].
    destruct (0 <? InterlockedDecrement c2); cbn; auto.
  - cbn. auto.
  - cbn. auto.
Qed.

(** Two worlds that the reference counting cannot tell apart stay that
    way, and give the same results, through every sequence of calls other
    than [Initialize]. *)
Lemma run_same_view (t : list Call) :
  forall w1 w2 : World,
    existsb is_Initialize t = false ->
    refcount_view w1 = refcount_view w2 ->
    match run t w1, run t w2 with
    | Some (rs1, w1'), Some (rs2, w2') =>
        rs1 = rs2 /\ refcount_view w1' = refcount_view w2'
    | None, None => True
    | _, _ => False
    end.
Proof.
  induction t as [|c t IH]; intros w1 w2 Ht Hv.
  - rewrite !run_nil. auto.
  - cbn [existsb] in Ht. apply orb_false_iff in Ht as [Hc Ht].
    rewrite !run_cons.
    pose proof (call_same_view c w1 w2 Hc Hv) as Hcall.
    destruct (call c w1) as [[r1 w1']|], (call c w2) as [[r2 w2']|];
      try contradiction; [|exact I].
    destruct Hcall as [-> Hv'].
    specialize (IH w1' w2' Ht Hv').
    destruct (run t w1') as [[rs1 w1'']|], (run t w2') as [[rs2 w2'']|];
      try contradiction; [|exact I].
    destruct IH as [-> Hv'']. auto.
Qed.

(** C8.  After an [Initialize] that has returned a failure status, the
    object is still there with its count and its engine pointer as they
    were, the engine count and the destructor count are as they were, and
    every later sequence of calls other than [Initialize] is defined or
    not, returns the same results and ends in the same reference counts
    (the deletion of the object included) as it would have without the
    failed call.  After a [QueryInterface] that has returned a failure
    status the whole world is as it was. *)
Theorem failed_call_keeps_refcounting
    (w : World) (o : CBextBaseBundleExtension) :
  this w = Some o ->
  (forall args hr w',
     Initialize (Some args) w = Some (hr, w') ->
     FAILED hr = true ->
     (exists o', this w' = Some o' /\
                 m_cReferences o' = m_cReferences o /\
                 m_pEngine o' = m_pEngine o) /\
     engine_refs w' = engine_refs w /\
     dtor_runs w' = dtor_runs w /\
     forall t,
       existsb is_Initialize t = false ->
       option_map (fun x => (fst x, refcount_view (snd x))) (run t w')
       = option_map (fun x => (fst x, refcount_view (snd x))) (run t w)) /\
  (forall riid ppv hr slot w',
     QueryInterface riid ppv w = Some ((hr, slot), w') ->
     FAILED hr = true ->
     w' = w).
Proof.
  intros Hthis. destruct w as [t0 e h d]; cbn in Hthis; subst t0. split.
  - intros args hr w' Hinit _. rewrite Initialize_live in Hinit.
    destruct (StrAllocString _ _ 0 h) as [[hr0 dst] h'].
    inversion Hinit; subst hr0 w'; clear Hinit. cbn [this engine_refs dtor_runs].
    split; [eexists; repeat split|]. split; [reflexivity|].
    split; [reflexivity|]. intros t Ht.
    pose proof (run_same_view t
      (mkWorld (Some (set_m_sczBundleExtensionDataPath dst o)) e h' d)
      (mkWorld (Some o) e h d) Ht eq_refl) as Hrun.
    destruct (run t (mkWorld (Some (set_m_sczBundleExtensionDataPath dst o)) e h' d))
      as [[rs1 w1]|], (run t (mkWorld (Some o) e h d)) as [[rs2 w2]|];
      try contradiction; [|reflexivity].
    destruct Hrun as [-> Hv]. cbn. rewrite Hv. reflexivity.
  - intros riid ppv hr slot w' Hq Hf. rewrite QueryInterface_live in Hq.
    destruct ppv as [v|].
    + cbv zeta in Hq. destruct (IsEqualIID IID_IBundleExtension riid);
        [|destruct (IsEqualIID IID_IUnknown riid)];
        inversion Hq; subst; try reflexivity; discriminate.
    + inversion Hq. reflexivity.
Qed.

(** ** The count wraps *)

Lemma wrap_long_add_l (a b : Z) : wrap_long (wrap_long a + b) = wrap_long (a + b).
Proof.
  unfold wrap_long.
  replace ((a + 2147483648) mod 4294967296 - 2147483648 + b + 2147483648)
    with ((a + 2147483648) mod 4294967296 + b) by lia.
  rewrite Z.add_mod_idemp_l by lia.
  do 2 f_equal. lia.
Qed.

Lemma increments_app (t1 t2 : list Call) :
  increments (t1 ++ t2) = increments t1 + increments t2.
Proof. induction t1 as [|c t1 IH]; cbn [app increments]; lia. Qed.

Lemma releases_app (t1 t2 : list Call) :
  releases (t1 ++ t2) = releases t1 + releases t2.
Proof. induction t1 as [|c t1 IH]; cbn [app releases]; lia. Qed.

Lemma increments_AddRefs (n : nat) :
  increments (repeat CallAddRef n) = Z.of_nat n.
Proof.
  induction n as [|n IH]; [reflexivity|].
  cbn [repeat increments increment_of]. lia.
Qed.

Lemma releases_AddRefs (n : nat) : releases (repeat CallAddRef n) = 0.
Proof.
  induction n as [|n IH]; [reflexivity|].
  cbn [repeat releases release_of]. lia.
Qed.

(** [n] calls of [AddRef] in a row add [n] to the count, modulo 2^32. *)
Lemma run_AddRefs (n : nat) :
  forall (o : CBextBaseBundleExtension) e h d,
    LONG_MIN <= m_cReferences o <= LONG_MAX ->
    exists rs,
      run (repeat CallAddRef n) (mkWorld (Some o) e h d) =
      Some (rs, mkWorld (Some (set_m_cReferences
                                 (wrap_long (m_cReferences o + Z.of_nat n)) o))
                        e h d).
Proof.
  induction n as [|n IH]; intros o e h d Hr.
  - exists []. rewrite run_nil. cbn [Z.of_nat]. rewrite Z.add_0_r.
    rewrite wrap_long_id by exact Hr. destruct o; reflexivity.
  - cbn [repeat]. rewrite run_cons. cbn [call]. unfold bind at 1.
    rewrite AddRef_live. unfold ret at 1.
    set (o1 := set_m_cReferences (InterlockedIncrement (m_cReferences o)) o).
    destruct (IH o1 e h d) as [rs Hrs].
    { subst o1. cbn. apply wrap_long_range. }
    rewrite Hrs. eexists. do 2 f_equal. f_equal.
    subst o1. unfold set_m_cReferences; cbn [m_cReferences m_pEngine
      m_sczBundleExtensionDataPath]. f_equal.
    unfold InterlockedIncrement. rewrite wrap_long_add_l.
    do 2 f_equal. lia.
Qed.

(** After 2^31 calls of [AddRef] on a fresh object the count has wrapped
    to [LONG_MIN + 1]; the first [Release] then takes it to [LONG_MIN],
    which is not above zero, and the object is deleted although one
    [Release] stands against 2^31 + 1 increments. *)
Lemma overflow_then_Release_destroys (R : Z) (h : Heap) :
  let t := repeat CallAddRef (Z.to_nat 2147483648) ++ [CallRelease] in
  exists rs w,
    run t (constructed R h) = Some (rs, w) /\
    this w = None /\ dtor_runs w = 1%nat /\
    releases t = 1 /\ increments t = 2147483648.
Proof.
  cbv zeta.
  assert (Hn : Z.of_nat (Z.to_nat 2147483648) = 2147483648)
    by (apply Z2Nat.id; lia).
  remember (Z.to_nat 2147483648) as n eqn:En. clear En.
  rewrite increments_app, releases_app, increments_AddRefs, releases_AddRefs.
  destruct (run_AddRefs n (mkExtension (Some HostEngine) None 1) (R + 1) h 0%nat)
    as [rs Hrs].
  { cbn. unfold LONG_MIN, LONG_MAX. lia. }
  unfold constructed. rewrite run_app, Hrs.
  cbn [m_cReferences]. rewrite Hn.
  rewrite run_cons. cbn [call]. unfold bind at 1. rewrite Release_live.
  eexists. eexists. split; [reflexivity|].
  cbn. repeat split; lia.
Qed.

(** ** AddRef and Release on their own *)

Lemma to_ULONG_InterlockedIncrement (v : Z) :
  0 <= v <= LONG_MAX -> to_ULONG (InterlockedIncrement v) = v + 1.
Proof.
  unfold to_ULONG, InterlockedIncrement, wrap_long, LONG_MAX. intros Hv.
  rewrite Zminus_mod_idemp_l.
  replace (v + 1 + 2147483648 - 2147483648) with (v + 1) by lia.
  apply Z.mod_small. lia.
Qed.

Lemma InterlockedDecrement_Increment (v : Z) :
  LONG_MIN <= v <= LONG_MAX ->
  InterlockedDecrement (InterlockedIncrement v) = v.
Proof.
  intros Hv. unfold InterlockedDecrement, InterlockedIncrement.
  replace (wrap_long (v + 1) - 1) with (wrap_long (v + 1) + -1) by lia.
  rewrite wrap_long_add_l.
  replace (v + 1 + -1) with v by lia. apply wrap_long_id. exact Hv.
Qed.

Lemma set_m_cReferences_same (o : CBextBaseBundleExtension) (l : Z) :
  set_m_cReferences (m_cReferences o) (set_m_cReferences l o) = o.
Proof. destruct o; reflexivity. Qed.

(** X1.  On a count from 0 to [LONG_MAX], [AddRef] returns the count plus
    one and leaves the object there with nothing but the count changed.
    The stored count is the count plus one below [LONG_MAX]; at
    [LONG_MAX] it wraps to [LONG_MIN] while 2^31 is returned. *)
Theorem AddRef_returns_next_count
    (w : World) (o : CBextBaseBundleExtension) :
  this w = Some o ->
  0 <= m_cReferences o <= LONG_MAX ->
  AddRef w =
  Some (m_cReferences o + 1,
        mkWorld (Some (set_m_cReferences
                         (InterlockedIncrement (m_cReferences o)) o))
                (engine_refs w) (heap w) (dtor_runs w)) /\
  (m_cReferences o < LONG_MAX ->
   InterlockedIncrement (m_cReferences o) = m_cReferences o + 1) /\
  (m_cReferences o = LONG_MAX ->
   InterlockedIncrement (m_cReferences o) = LONG_MIN).
Proof.
  intros Hthis Hc. destruct w as [t e h d]; cbn in Hthis; subst t.
  cbn [engine_refs heap dtor_runs]. rewrite AddRef_live.
  rewrite to_ULONG_InterlockedIncrement by exact Hc.
  split; [reflexivity|]. split.
  - intros Hlt. apply InterlockedIncrement_below_max.
    unfold LONG_MIN. lia.
  - intros ->. reflexivity.
Qed.

(** X2.  [Release] on an object that is there always returns.  It returns
    zero exactly when it has deleted the object, which it does exactly
    when the decremented count is not above zero, negative counts
    included; the destructor has then run once.  Otherwise it returns the
    decremented count, which is above zero, and the destructor has not
    run. *)
Theorem Release_returns_zero_iff_destroyed
    (w : World) (o : CBextBaseBundleExtension) :
  this w = Some o ->
  exists (n : Z) (w' : World),
    Release w = Some (n, w') /\
    (n = 0 <-> this w' = None) /\
    (this w' = None <-> InterlockedDecrement (m_cReferences o) <= 0) /\
    (this w' = None -> dtor_runs w' = S (dtor_runs w)) /\
    (this w' <> None ->
     n = InterlockedDecrement (m_cReferences o) /\ 0 < n /\
     dtor_runs w' = dtor_runs w).
Proof.
  intros Hthis. destruct w as [t e h d]; cbn in Hthis; subst t.
  rewrite Release_live. cbv zeta. cbn [dtor_runs].
  destruct (0 <? InterlockedDecrement (m_cReferences o)) eqn:Hl.
  - apply Z.ltb_lt in Hl.
    rewrite to_ULONG_InterlockedDecrement by exact Hl.
    eexists. eexists. split; [reflexivity|]. cbn [this dtor_runs].
    repeat split; try discriminate; try lia; try assumption.
  - apply Z.ltb_ge in Hl.
    eexists. eexists. split; [reflexivity|]. cbn [this dtor_runs].
    repeat split; try reflexivity; try assumption; congruence.
Qed.

(** ** Round trips *)

(** X3.  On a count from 1 to [LONG_MAX], [AddRef] followed by [Release]
    returns the count plus one and then the count, and leaves the world
    exactly as it was, also at [LONG_MAX] where the stored count wraps in
    between. *)
Theorem AddRef_then_Release_restores
    (w : World) (o : CBextBaseBundleExtension) :
  this w = Some o ->
  0 < m_cReferences o <= LONG_MAX ->
  run [CallAddRef; CallRelease] w =
  Some ([ResultCount (m_cReferences o + 1); ResultCount (m_cReferences o)], w).
Proof.
  intros Hthis Hc. destruct w as [t e h d]; cbn in Hthis; subst t.
  rewrite run_cons. cbn [call]. unfold bind at 1. rewrite AddRef_live.
  unfold ret at 1. rewrite run_cons. cbn [call]. unfold bind at 1.
  rewrite Release_live. cbv zeta. cbn [m_cReferences set_m_cReferences].
  rewrite InterlockedDecrement_Increment by (unfold LONG_MIN; lia).
  replace (0 <? m_cReferences o) with true by (symmetry; apply Z.ltb_lt; lia).
  unfold ret at 1. rewrite run_nil.
  rewrite to_ULONG_InterlockedIncrement by lia.
  rewrite to_ULONG_positive by lia.
  destruct o; reflexivity.
Qed.

(** X4.  On a count from 1 to [LONG_MAX], a [QueryInterface] for one of
    the two known identifiers followed by the [Release] of the handle
    returns [S_OK] with the cast of [this] and then the count, and leaves
    the world exactly as it was. *)
Theorem QueryInterface_then_Release_restores
    (riid : GUID) (v : LPVOID) (w : World) (o : CBextBaseBundleExtension) :
  this w = Some o ->
  0 < m_cReferences o <= LONG_MAX ->
  riid = IID_IBundleExtension \/ riid = IID_IUnknown ->
  run [CallQueryInterface riid (Some v); CallRelease] w =
  Some ([ResultQuery S_OK
           (Some (Some (static_cast_this
                          (if IsEqualIID IID_IBundleExtension riid
                           then I_IBundleExtension else I_IUnknown))));
         ResultCount (m_cReferences o)], w).
Proof.
  intros Hthis Hc Hriid. destruct w as [t e h d]; cbn in Hthis; subst t.
  assert (Hq : QueryInterface riid (Some v) (mkWorld (Some o) e h d) =
               Some ((S_OK,
                      Some (Some (static_cast_this
                                    (if IsEqualIID IID_IBundleExtension riid
                                     then I_IBundleExtension else I_IUnknown)))),
                     mkWorld (Some (set_m_cReferences
                                      (InterlockedIncrement (m_cReferences o)) o))
                             e h d)).
  { rewrite QueryInterface_live. cbv zeta.
    destruct (IsEqualIID IID_IBundleExtension riid) eqn:E1; [reflexivity|].
    destruct Hriid as [-> | ->].
    - apply IsEqualIID_neq in E1. congruence.
    - replace (IsEqualIID IID_IUnknown IID_IUnknown) with true
        by (symmetry; apply IsEqualIID_eq; reflexivity).
      reflexivity. }
  rewrite run_cons. cbn [call]. unfold bind at 1. rewrite Hq.
  unfold ret at 1. cbn [fst snd]. rewrite run_cons. cbn [call].
  unfold bind at 1.
  rewrite Release_live. cbv zeta. cbn [m_cReferences set_m_cReferences].
  rewrite InterlockedDecrement_Increment by (unfold LONG_MIN; lia).
  replace (0 <? m_cReferences o) with true by (symmetry; apply Z.ltb_lt; lia).
  unfold ret at 1. rewrite run_nil.
  rewrite to_ULONG_positive by lia.
  destruct o; reflexivity.
Qed.

(** ** The count through every sequence *)

Lemma next_count_mod (c : Call) (v : Z) :
  LONG_MIN <= v <= LONG_MAX ->
  next_count c v = wrap_long (v + increment_of c - release_of c).
Proof.
  intros Hv.
  destruct c as [riid ppv| | |a b|m a b c'|args];
    cbn [next_count increment_of release_of];
    unfold InterlockedIncrement, InterlockedDecrement;
    try (f_equal; lia);
    try (rewrite wrap_long_id; [lia | lia]).
  destruct (qi_succeeds riid ppv).
  - f_equal; lia.
  - rewrite wrap_long_id; [lia | lia].
Qed.

Lemma run_count_mod_from (t : list Call) :
  forall (o : CBextBaseBundleExtension) e h d rs w',
    LONG_MIN <= m_cReferences o <= LONG_MAX ->
    run t (mkWorld (Some o) e h d) = Some (rs, w') ->
    match this w' with
    | Some o' =>
        m_cReferences o' =
        wrap_long (m_cReferences o + increments t - releases t)
    | None =>
        wrap_long (m_cReferences o + increments t - releases t) <= 0 /\
        exists t', t = t' ++ [CallRelease]
    end.
Proof.
  induction t as [|c t IH]; intros o e h d rs w' Hv Hrun.
  - rewrite run_nil in Hrun. inversion Hrun; subst. cbn.
    rewrite wrap_long_id; [lia | lia].
  - rewrite run_cons in Hrun.
    destruct (call c (mkWorld (Some o) e h d)) as [[r w1]|] eqn:Ec;
      [|discriminate].
    destruct (run t w1) as [[rs1 w2]|] eqn:Er; [|discriminate].
    inversion Hrun; subst rs w2; clear Hrun.
    apply call_live_shape in Ec. cbn [increments releases].
    destruct Ec as [(o1 & h1 & -> & _ & Hc & _) | (-> & Hle & h1 & ->)].
    + rewrite next_count_mod in Hc by exact Hv.
      assert (Hr1 : LONG_MIN <= m_cReferences o1 <= LONG_MAX)
        by (rewrite Hc; apply wrap_long_range).
      specialize (IH o1 e h1 d rs1 w' Hr1 Er).
      rewrite Hc in IH.
      replace (wrap_long (m_cReferences o + increment_of c - release_of c)
               + increments t - releases t)
        with (wrap_long (m_cReferences o + increment_of c - release_of c)
              + (increments t - releases t)) in IH by lia.
      rewrite wrap_long_add_l in IH.
      replace (m_cReferences o + (increment_of c + increments t)
               - (release_of c + releases t))
        with (m_cReferences o + increment_of c - release_of c
              + (increments t - releases t)) by lia.
      destruct (this w') as [o'|]; [exact IH|].
      destruct IH as [H1 (t' & ->)]. split; [exact H1|].
      exists (c :: t'). reflexivity.
    + rewrite next_count_mod in Hle by exact Hv.
      apply run_deleted in Er as [-> ->]. cbn [this increments releases].
      split.
      * replace (m_cReferences o + (increment_of CallRelease + 0)
                 - (release_of CallRelease + 0))
          with (m_cReferences o + increment_of CallRelease
                - release_of CallRelease) by lia.
        exact Hle.
      * exists []. reflexivity.
Qed.

(** X5.  Through every sequence of calls on a fresh object, with no bound
    on its length, the stored count is the number of references
    outstanding reduced to a [long]; and if the object is gone at the
    end, the last call is a [Release] that found that reduced number not
    above zero. *)
Theorem stored_count_is_outstanding_mod_2_32
    (R : Z) (h : Heap) (t : list Call) (rs : list Result) (w : World) :
  run t (constructed R h) = Some (rs, w) ->
  match this w with
  | Some o => m_cReferences o = wrap_long (outstanding t)
  | None =>
      wrap_long (outstanding t) <= 0 /\ exists t', t = t' ++ [CallRelease]
  end.
Proof.
  intros Hrun. unfold constructed in Hrun.
  apply run_count_mod_from in Hrun;
    [|cbn; unfold LONG_MIN, LONG_MAX; lia].
  exact Hrun.
Qed.

Lemma run_results_from (t : list Call) :
  forall (o : CBextBaseBundleExtension) e h d rs w',
    0 < m_cReferences o <= LONG_MAX ->
    within_long_from (m_cReferences o) t = true ->
    run t (mkWorld (Some o) e h d) = Some (rs, w') ->
    forall (i : nat) (c : Call),
      nth_error t i = Some c ->
      c = CallAddRef \/ c = CallRelease ->
      nth_error rs i =
      Some (ResultCount (m_cReferences o + increments (firstn (S i) t)
                         - releases (firstn (S i) t))).
Proof.
  induction t as [|c0 t IH]; intros o e h d rs w' Hv Hin Hrun i c Hi Hc.
  - destruct i; discriminate.
  - rewrite run_cons in Hrun.
    destruct (call c0 (mkWorld (Some o) e h d)) as [[r w1]|] eqn:Ec;
      [|discriminate].
    destruct (run t w1) as [[rs1 w2]|] eqn:Er; [|discriminate].
    inversion Hrun; subst rs w2; clear Hrun.
    cbn [within_long_from] in Hin. apply andb_true_iff in Hin as [Hmax Hin].
    apply Z.leb_le in Hmax.
    destruct i as [|i].
    + cbn in Hi. inversion Hi; subst c0; clear Hi.
      cbn [nth_error firstn increments releases]. f_equal.
      destruct Hc as [-> | ->]; cbn [call increment_of release_of] in *;
        unfold bind in Ec.
      * rewrite AddRef_live in Ec. unfold ret in Ec.
        inversion Ec; subst. f_equal.
        rewrite to_ULONG_InterlockedIncrement by lia. lia.
      * rewrite Release_live in Ec. cbv zeta in Ec.
        rewrite InterlockedDecrement_above_min in Ec
          by (unfold LONG_MIN; lia).
        destruct (0 <? m_cReferences o - 1) eqn:Hl; unfold ret in Ec;
          inversion Ec; subst; f_equal.
        -- apply Z.ltb_lt in Hl. rewrite to_ULONG_positive by lia. lia.
        -- apply Z.ltb_ge in Hl. lia.
    + cbn [nth_error] in Hi.
      apply call_live_shape in Ec.
      destruct Ec as [(o1 & h1 & -> & _ & Hc1 & Hr) | (-> & _ & h1 & ->)].
      * rewrite next_count_exact in Hc1, Hr by assumption.
        assert (Hpos : 0 < m_cReferences o + increment_of c0 - release_of c0)
          by (apply next_count_live_positive; [lia | exact Hr]).
        rewrite <- Hc1 in Hin.
        specialize (IH o1 e h1 d rs1 w' ltac:(lia) Hin Er i c Hi Hc).
        cbn [nth_error]. rewrite IH. do 2 f_equal.
        change (firstn (S (S i)) (c0 :: t)) with (c0 :: firstn (S i) t).
        cbn [increments releases]. lia.
      * apply run_deleted in Er as [-> _]. destruct i; discriminate.
Qed.

(** X6.  In a sequence on a fresh object that never has more than
    [LONG_MAX] references outstanding, every [AddRef] and every [Release]
    returns the number of references outstanding after it. *)
Theorem counts_returned_are_outstanding
    (R : Z) (h : Heap) (t : list Call) (rs : list Result) (w : World) :
  within_long t = true ->
  run t (constructed R h) = Some (rs, w) ->
  forall (i : nat) (c : Call),
    nth_error t i = Some c ->
    c = CallAddRef \/ c = CallRelease ->
    nth_error rs i = Some (ResultCount (outstanding (firstn (S i) t))).
Proof.
  intros Hin Hrun i c Hi Hc. unfold within_long in Hin.
  unfold constructed in Hrun. unfold outstanding.
  pose proof (run_results_from t (mkExtension (Some HostEngine) None 1)
                (R + 1) h 0%nat rs w) as H.
  cbn [m_cReferences] in H.
  apply (H ltac:(unfold LONG_MAX; lia) Hin Hrun i c Hi Hc).
Qed.

(** ** The heap and the engine over the lifetime of the object *)

(** A call other than [Initialize] on an object that is there leaves the
    heap and the data path alone, unless it is the [Release] that deletes
    the object, which gives the data path back. *)
Lemma call_live_heap (c : Call) (o : CBextBaseBundleExtension) e h d r w1 :
  is_Initialize c = false ->
  call c (mkWorld (Some o) e h d) = Some (r, w1) ->
  (exists o1, w1 = mkWorld (Some o1) e h d /\
              m_sczBundleExtensionDataPath o1 = m_sczBundleExtensionDataPath o /\
              m_pEngine o1 = m_pEngine o) \/
  w1 = mkWorld None
         (match m_pEngine o with Some _ => e - 1 | None => e end)
         (match m_sczBundleExtensionDataPath o with
          | Some s => StrFree s h
          | None => h
          end)
         (S d).
Proof.
  destruct c as [riid ppv| | |a b|m a b c'|args]; try discriminate; intros _;
    cbn [call]; unfold bind at 1.
  - rewrite QueryInterface_live. unfold ret.
    destruct ppv as [v|].
    + cbv zeta. destruct (IsEqualIID IID_IBundleExtension riid);
        [|destruct (IsEqualIID IID_IUnknown riid)];
        intros E; inversion E; subst; left; eexists; repeat split.
    + intros E; inversion E; subst; left; eexists; repeat split.
  - rewrite AddRef_live. unfold ret. intros E; inversion E; subst; left.
    eexists; repeat split.
  - rewrite Release_live. cbv zeta.
    destruct (0 <? InterlockedDecrement (m_cReferences o));
      unfold ret; intros E; inversion E; subst.
    + left. eexists; repeat split.
    + right. reflexivity.
  - unfold Search, bind, get_this, ret; cbn [this].
    intros E; inversion E; subst; left. eexists; repeat split.
  - unfold BundleExtensionProc, bind, get_this, ret; cbn [this].
    intros E; inversion E; subst; left. eexists; repeat split.
Qed.

Lemma run_heap_from (t : list Call) :
  forall (o : CBextBaseBundleExtension) e h d rs w',
    existsb is_Initialize t = false ->
    run t (mkWorld (Some o) e h d) = Some (rs, w') ->
    match this w' with
    | Some o' =>
        heap w' = h /\
        m_sczBundleExtensionDataPath o' = m_sczBundleExtensionDataPath o
    | None =>
        heap w' = (match m_sczBundleExtensionDataPath o with
                   | Some s => StrFree s h
                   | None => h
                   end) /\
        engine_refs w' = (match m_pEngine o with Some _ => e - 1 | None => e end)
        /\ dtor_runs w' = S d
    end.
Proof.
  induction t as [|c t IH]; intros o e h d rs w' Ht Hrun.
  - rewrite run_nil in Hrun. inversion Hrun; subst. cbn. auto.
  - cbn [existsb] in Ht. apply orb_false_iff in Ht as [Hc Ht].
    rewrite run_cons in Hrun.
    destruct (call c (mkWorld (Some o) e h d)) as [[r w1]|] eqn:Ec;
      [|discriminate].
    destruct (run t w1) as [[rs1 w2]|] eqn:Er; [|discriminate].
    inversion Hrun; subst rs w2; clear Hrun.
    apply call_live_heap in Ec; [|exact Hc].
    destruct Ec as [(o1 & -> & Hp & He) | ->].
    + specialize (IH o1 e h d rs1 w' Ht Er). rewrite Hp, He in IH. exact IH.
    + apply run_deleted in Er as [-> ->]. cbn. auto.
Qed.

(** X7.  Provided that giving a string back undoes its copy, the lifetime
    of the object leaves no trace outside it: once the object is gone,
    after construction, at most one [Initialize] right after it (whether
    the copy succeeded or not) and any calls other than [Initialize], the
    engine count and the heap are as they were before the construction
    and the destructor has run once. *)
Theorem lifetime_restores_engine_and_heap (R : Z) (h : Heap) :
  StrFree_undoes_StrAllocString ->
  (forall t rs w,
     existsb is_Initialize t = false ->
     run t (constructed R h) = Some (rs, w) ->
     this w = None ->
     engine_refs w = R /\ heap w = h /\ dtor_runs w = 1%nat) /\
  (forall args t rs w,
     existsb is_Initialize t = false ->
     run (CallInitialize (Some args) :: t) (constructed R h) = Some (rs, w) ->
     this w = None ->
     engine_refs w = R /\ heap w = h /\ dtor_runs w = 1%nat).
Proof.
  intros Hundo. split.
  - intros t rs w Ht Hrun Hgone. unfold constructed in Hrun.
    apply run_heap_from in Hrun; [|exact Ht]. rewrite Hgone in Hrun.
    cbn in Hrun. destruct Hrun as (H1 & H2 & H3). repeat split; try lia.
    exact H1.
  - intros args t rs w Ht Hrun Hgone. unfold constructed in Hrun.
    rewrite run_cons in Hrun. cbn [call] in Hrun. unfold bind at 1 in Hrun.
    rewrite Initialize_live in Hrun. cbn [m_sczBundleExtensionDataPath] in Hrun.
    specialize (Hundo (wzBundleExtensionDataPath args) h).
    destruct (StrAllocString None (wzBundleExtensionDataPath args) 0 h)
      as [[hr dst] h'].
    unfold ret at 1 in Hrun.
    destruct (run t _) as [[rs1 w2]|] eqn:Er; [|discriminate].
    inversion Hrun; subst rs w2; clear Hrun.
    apply run_heap_from in Er; [|exact Ht]. rewrite Hgone in Er.
    cbn in Er. destruct Er as (H1 & H2 & H3). repeat split; try lia.
    rewrite H1. destruct dst; exact Hundo.
Qed.

(** X8.  [Initialize], whatever status it returns, leaves the object
    there and is invisible to the reference counting: the count, the
    engine pointer, the engine count and the destructor count are as they
    were, and every later sequence of calls other than [Initialize] is
    defined or not, returns the same results and ends in the same
    reference counts as it would have without the call. *)
Theorem Initialize_invisible_to_refcounting
    (args : BUNDLE_EXTENSION_CREATE_ARGS) (w w' : World)
    (o : CBextBaseBundleExtension) (hr : HRESULT) :
  this w = Some o ->
  Initialize (Some args) w = Some (hr, w') ->
  refcount_view w' = refcount_view w /\
  this w' <> None /\
  forall t,
    existsb is_Initialize t = false ->
    option_map (fun x => (fst x, refcount_view (snd x))) (run t w')
    = option_map (fun x => (fst x, refcount_view (snd x))) (run t w).
Proof.
  intros Hthis Hinit. destruct w as [t0 e h d]; cbn in Hthis; subst t0.
  rewrite Initialize_live in Hinit.
  destruct (StrAllocString _ _ 0 h) as [[hr0 dst] h'].
  inversion Hinit; subst hr0 w'; clear Hinit.
  split; [reflexivity|]. split; [discriminate|]. intros t Ht.
  pose proof (run_same_view t
    (mkWorld (Some (set_m_sczBundleExtensionDataPath dst o)) e h' d)
    (mkWorld (Some o) e h d) Ht eq_refl) as Hrun.
  destruct (run t (mkWorld (Some (set_m_sczBundleExtensionDataPath dst o)) e h' d))
    as [[rs1 w1]|], (run t (mkWorld (Some o) e h d)) as [[rs2 w2]|];
    try contradiction; [|reflexivity].
  destruct Hrun as [-> Hv]. cbn. rewrite Hv. reflexivity.
Qed.

End Extension.

Arguments mkWorld {Heap}.
Arguments this {Heap}.
Arguments engine_refs {Heap}.
Arguments heap {Heap}.
Arguments dtor_runs {Heap}.
Arguments initial_world {Heap}.
Arguments constructed {Heap}.
Arguments refcount_view {Heap}.

(** * The model at work

    The development instantiated with the budget allocator and the sample
    interface identifier, and run on concrete worlds. *)

Lemma Release_returns_count_or_destroys_witness :
  this (mkWorld (Some (mkExtension (Some HostEngine) (Some "data"%string) 1))
                5 100 0%nat)
  = Some (mkExtension (Some HostEngine) (Some "data"%string) 1) /\
  Release Z budget_StrFree
    (mkWorld (Some (mkExtension (Some HostEngine) (Some "data"%string) 1))
             5 100 0%nat)
  = Some (0, mkWorld None 4 105 1%nat).
Proof.
  split; [reflexivity|].
  destruct (Release_returns_count_or_destroys Z budget_StrFree
              (mkWorld (Some (mkExtension (Some HostEngine)
                                (Some "data"%string) 1)) 5 100 0%nat)
              _ eq_refl) as (_ & _ & Hzero).
  exact (Hzero eq_refl).
Defined.

Lemma QueryInterface_null_slot_E_INVALIDARG_witness :
  this (mkWorld (Some (mkExtension (Some HostEngine) None 1)) 5 100 0%nat)
  = Some (mkExtension (Some HostEngine) None 1) /\
  QueryInterface Z sample_IID_IBundleExtension IID_IUnknown None
    (mkWorld (Some (mkExtension (Some HostEngine) None 1)) 5 100 0%nat)
  = Some ((E_INVALIDARG, None),
          mkWorld (Some (mkExtension (Some HostEngine) None 1)) 5 100 0%nat).
Proof.
  split; [reflexivity|].
  eapply QueryInterface_null_slot_E_INVALIDARG. reflexivity.
Defined.

Lemma QueryInterface_known_or_E_NOINTERFACE_witness :
  this (mkWorld (Some (mkExtension (Some HostEngine) None 1)) 5 100 0%nat)
  = Some (mkExtension (Some HostEngine) None 1) /\
  QueryInterface Z sample_IID_IBundleExtension IID_IUnknown (Some None)
    (mkWorld (Some (mkExtension (Some HostEngine) None 1)) 5 100 0%nat)
  = Some ((S_OK, Some (Some (static_cast_this I_IUnknown))),
          mkWorld (Some (mkExtension (Some HostEngine) None 2)) 5 100 0%nat) /\
  QueryInterface Z sample_IID_IBundleExtension (mkGUID 1 2 3 []) (Some None)
    (mkWorld (Some (mkExtension (Some HostEngine) None 1)) 5 100 0%nat)
  = Some ((E_NOINTERFACE, Some None),
          mkWorld (Some (mkExtension (Some HostEngine) None 1)) 5 100 0%nat).
Proof.
  split; [reflexivity|]. split.
  - destruct (QueryInterface_known_or_E_NOINTERFACE Z
                sample_IID_IBundleExtension IID_IUnknown None
                (mkWorld (Some (mkExtension (Some HostEngine) None 1))
                         5 100 0%nat) _ eq_refl) as [Hknown _].
    exact (proj1 (Hknown (or_intror eq_refl))).
  - destruct (QueryInterface_known_or_E_NOINTERFACE Z
                sample_IID_IBundleExtension (mkGUID 1 2 3 []) None
                (mkWorld (Some (mkExtension (Some HostEngine) None 1))
                         5 100 0%nat) _ eq_refl) as [_ Hother].
    apply Hother; discriminate.
Defined.

Lemma Search_BundleExtensionProc_E_NOTIMPL_witness :
  this (mkWorld (Some (mkExtension (Some HostEngine) None 1)) 5 100 0%nat)
  = Some (mkExtension (Some HostEngine) None 1) /\
  Search Z (Some "id"%string) None
    (mkWorld (Some (mkExtension (Some HostEngine) None 1)) 5 100 0%nat)
  = Some (E_NOTIMPL,
          mkWorld (Some (mkExtension (Some HostEngine) None 1)) 5 100 0%nat) /\
  BundleExtensionProc Z 0 0 0 0
    (mkWorld (Some (mkExtension (Some HostEngine) None 1)) 5 100 0%nat)
  = Some (E_NOTIMPL,
          mkWorld (Some (mkExtension (Some HostEngine) None 1)) 5 100 0%nat).
Proof.
  split; [reflexivity|].
  eapply Search_BundleExtensionProc_E_NOTIMPL. reflexivity.
Defined.

(** The budget allocator keeps the contract of the string copy. *)
Lemma budget_StrAllocString_copies :
  StrAllocString_copies Z budget_StrAllocString.
Proof.
  intros dst s h. unfold budget_StrAllocString. cbn [Z.eqb].
  destruct (Z.of_nat (String.length s) + 1 <=? h).
  - left. split; reflexivity.
  - right. reflexivity.
Qed.

Lemma Initialize_copies_data_path_witness :
  StrAllocString_copies Z budget_StrAllocString /\
  this (mkWorld (Some (mkExtension (Some HostEngine) None 1)) 5 100 0%nat)
  = Some (mkExtension (Some HostEngine) None 1) /\
  Initialize Z budget_StrAllocString
    (Some (mkCreateArgs (Some "data"%string)))
    (mkWorld (Some (mkExtension (Some HostEngine) None 1)) 5 100 0%nat)
  = Some (S_OK,
          mkWorld (Some (mkExtension (Some HostEngine) (Some "data"%string) 1))
                  5 95 0%nat).
Proof.
  split; [exact budget_StrAllocString_copies|]. split; [reflexivity|].
  destruct (Initialize_copies_data_path Z budget_StrAllocString "data"%string
              (mkWorld (Some (mkExtension (Some HostEngine) None 1))
                       5 100 0%nat)
              _ budget_StrAllocString_copies eq_refl)
    as (hr & dst & h' & Ecopy & Einit & _).
  inversion Ecopy; subst hr dst h'. exact Einit.
Defined.

(** An allocation that is refused: [Initialize] returns [E_OUTOFMEMORY]. *)
Example Initialize_out_of_memory :
  Initialize Z budget_StrAllocString
    (Some (mkCreateArgs (Some "data"%string)))
    (mkWorld (Some (mkExtension (Some HostEngine) None 1)) 5 2 0%nat)
  = Some (E_OUTOFMEMORY,
          mkWorld (Some (mkExtension (Some HostEngine) None 1)) 5 2 0%nat)
  /\ FAILED E_OUTOFMEMORY = true.
Proof. split; reflexivity. Qed.

(** [QueryInterface] for [IUnknown] on a fresh object gives [S_OK] and
    takes the count to 2; the [Release] of the handle takes it back to 1
    and the object stays. *)
Example QueryInterface_then_Release :
  run Z budget_StrAllocString budget_StrFree sample_IID_IBundleExtension
    [CallQueryInterface IID_IUnknown (Some None); CallRelease]
    (constructed 5 100)
  = Some ([ResultQuery S_OK (Some (Some (static_cast_this I_IUnknown)));
           ResultCount 1],
          mkWorld (Some (mkExtension (Some HostEngine) None 1)) 6 100 0%nat).
Proof. vm_compute. reflexivity. Qed.

Lemma destroyed_once_at_balance_witness :
  within_long sample_IID_IBundleExtension
    [CallAddRef; CallQueryInterface IID_IUnknown (Some None);
     CallRelease; CallRelease; CallRelease] = true /\
  exists rs w,
    run Z budget_StrAllocString budget_StrFree sample_IID_IBundleExtension
      [CallAddRef; CallQueryInterface IID_IUnknown (Some None);
       CallRelease; CallRelease; CallRelease]
      (constructed 5 100) = Some (rs, w) /\
    this w = None /\ dtor_runs w = 1%nat /\
    releases [CallAddRef; CallQueryInterface IID_IUnknown (Some None);
              CallRelease; CallRelease; CallRelease]
    = 1 + increments sample_IID_IBundleExtension
            [CallAddRef; CallQueryInterface IID_IUnknown (Some None);
             CallRelease; CallRelease; CallRelease].
Proof.
  split; [vm_compute; reflexivity|].
  assert (Hrun :
    run Z budget_StrAllocString budget_StrFree sample_IID_IBundleExtension
      [CallAddRef; CallQueryInterface IID_IUnknown (Some None);
       CallRelease; CallRelease; CallRelease]
      (constructed 5 100)
    = Some ([ResultCount 2;
             ResultQuery S_OK (Some (Some (static_cast_this I_IUnknown)));
             ResultCount 2; ResultCount 1; ResultCount 0],
            mkWorld None 5 100 1%nat))
    by (vm_compute; reflexivity).
  destruct (destroyed_once_at_balance Z budget_StrAllocString budget_StrFree
              sample_IID_IBundleExtension 5 100
              [CallAddRef; CallQueryInterface IID_IUnknown (Some None);
               CallRelease; CallRelease; CallRelease])
    as [Hsound _]; [vm_compute; reflexivity|].
  destruct (Hsound _ _ Hrun) as (_ & Hiff & Hgone & _).
  eexists. eexists. split; [exact Hrun|].
  split; [reflexivity|]. split.
  - exact (proj1 (Hgone eq_refl)).
  - exact (proj1 Hiff eq_refl).
Defined.

(** C2 beyond the range of the count.  2^31 calls of [AddRef] and then
    one [Release]: the sequence is defined, its [Release] deletes the object
    and runs the destructor, and yet one [Release] stands against
    2^31 + 1 increments. *)
Lemma Release_after_overflow_destroys_unbalanced :
  exists rs w,
    run Z budget_StrAllocString budget_StrFree sample_IID_IBundleExtension
      (repeat CallAddRef (Z.to_nat 2147483648) ++ [CallRelease])
      (constructed 5 100) = Some (rs, w) /\
    this w = None /\ dtor_runs w = 1%nat /\
    releases (repeat CallAddRef (Z.to_nat 2147483648) ++ [CallRelease])
    <> 1 + increments sample_IID_IBundleExtension
             (repeat CallAddRef (Z.to_nat 2147483648) ++ [CallRelease]) /\
    ~ destroyed_only_when_balanced Z budget_StrAllocString budget_StrFree
        sample_IID_IBundleExtension 5 100
        (repeat CallAddRef (Z.to_nat 2147483648) ++ [CallRelease]).
Proof.
  pose proof (overflow_then_Release_destroys Z budget_StrAllocString
                budget_StrFree sample_IID_IBundleExtension 5 100) as H.
  cbv zeta in H.
  set (t := repeat CallAddRef (Z.to_nat 2147483648) ++ [CallRelease]) in *.
  clearbody t.
  destruct H as (rs & w & Hrun & Hgone & Hdtor & Hrel & Hinc).
  exists rs, w.
  split; [exact Hrun|]. split; [exact Hgone|]. split; [exact Hdtor|].
  rewrite Hrel, Hinc. split.
  - discriminate.
  - intros Hclaim. specialize (Hclaim rs w Hrun Hgone).
    rewrite Hrel, Hinc in Hclaim. discriminate.
Qed.

Lemma failed_call_keeps_refcounting_witness :
  this (mkWorld (Some (mkExtension (Some HostEngine) None 2)) 5 2 0%nat)
  = Some (mkExtension (Some HostEngine) None 2) /\
  Initialize Z budget_StrAllocString
    (Some (mkCreateArgs (Some "data"%string)))
    (mkWorld (Some (mkExtension (Some HostEngine) None 2)) 5 2 0%nat)
  = Some (E_OUTOFMEMORY,
          mkWorld (Some (mkExtension (Some HostEngine) None 2)) 5 2 0%nat) /\
  FAILED E_OUTOFMEMORY = true /\
  option_map (fun x => (fst x, refcount_view (snd x)))
    (run Z budget_StrAllocString budget_StrFree sample_IID_IBundleExtension
       [CallRelease; CallRelease]
       (mkWorld (Some (mkExtension (Some HostEngine) None 2)) 5 2 0%nat))
  = Some ([ResultCount 1; ResultCount 0], (None, 4, 1%nat)).
Proof.
  split; [reflexivity|]. split; [reflexivity|]. split; [reflexivity|].
  destruct (failed_call_keeps_refcounting Z budget_StrAllocString
              budget_StrFree sample_IID_IBundleExtension
              (mkWorld (Some (mkExtension (Some HostEngine) None 2))
                       5 2 0%nat) _ eq_refl) as [Hinit _].
  destruct (Hinit (mkCreateArgs (Some "data"%string)) E_OUTOFMEMORY _
              eq_refl eq_refl) as (_ & _ & _ & Hrun).
  exact (eq_trans (eq_sym (Hrun [CallRelease; CallRelease] eq_refl)) eq_refl).
Defined.

(** * Further properties at work *)

Lemma AddRef_returns_next_count_witness :
  this (mkWorld (Some (mkExtension (Some HostEngine) None 2147483647))
                5 100 0%nat)
  = Some (mkExtension (Some HostEngine) None 2147483647) /\
  0 <= 2147483647 <= LONG_MAX /\
  AddRef Z (mkWorld (Some (mkExtension (Some HostEngine) None 2147483647))
                    5 100 0%nat)
  = Some (2147483648,
          mkWorld (Some (mkExtension (Some HostEngine) None (-2147483648)))
                  5 100 0%nat).
Proof.
  assert (Hc : 0 <= 2147483647 <= LONG_MAX) by (unfold LONG_MAX; lia).
  split; [reflexivity|]. split; [exact Hc|].
  destruct (AddRef_returns_next_count Z
              (mkWorld (Some (mkExtension (Some HostEngine) None 2147483647))
                       5 100 0%nat) _ eq_refl Hc) as [Hret _].
  exact Hret.
Defined.

Lemma Release_returns_zero_iff_destroyed_witness :
  this (mkWorld (Some (mkExtension (Some HostEngine) None 0)) 5 100 0%nat)
  = Some (mkExtension (Some HostEngine) None 0) /\
  exists n w',
    Release Z budget_StrFree
      (mkWorld (Some (mkExtension (Some HostEngine) None 0)) 5 100 0%nat)
    = Some (n, w') /\ n = 0 /\ this w' = None /\ dtor_runs w' = 1%nat.
Proof.
  split; [reflexivity|].
  destruct (Release_returns_zero_iff_destroyed Z budget_StrFree
              (mkWorld (Some (mkExtension (Some HostEngine) None 0))
                       5 100 0%nat) _ eq_refl)
    as (n & w' & Hrel & Hzero & Hgone & Hdtor & _).
  assert (Hnone : this w' = None)
    by (apply Hgone; vm_compute; discriminate).
  exists n, w'. split; [exact Hrel|]. split; [apply Hzero; exact Hnone|].
  split; [exact Hnone|]. exact (Hdtor Hnone).
Defined.

Lemma AddRef_then_Release_restores_witness :
  this (mkWorld (Some (mkExtension (Some HostEngine) None 3)) 5 100 0%nat)
  = Some (mkExtension (Some HostEngine) None 3) /\
  0 < 3 <= LONG_MAX /\
  run Z budget_StrAllocString budget_StrFree sample_IID_IBundleExtension
    [CallAddRef; CallRelease]
    (mkWorld (Some (mkExtension (Some HostEngine) None 3)) 5 100 0%nat)
  = Some ([ResultCount 4; ResultCount 3],
          mkWorld (Some (mkExtension (Some HostEngine) None 3)) 5 100 0%nat).
Proof.
  assert (Hc : 0 < 3 <= LONG_MAX) by (unfold LONG_MAX; lia).
  split; [reflexivity|]. split; [exact Hc|].
  exact (AddRef_then_Release_restores Z budget_StrAllocString budget_StrFree
           sample_IID_IBundleExtension
           (mkWorld (Some (mkExtension (Some HostEngine) None 3)) 5 100 0%nat)
           (mkExtension (Some HostEngine) None 3) eq_refl Hc).
Defined.

Lemma QueryInterface_then_Release_restores_witness :
  this (mkWorld (Some (mkExtension (Some HostEngine) None 1)) 5 100 0%nat)
  = Some (mkExtension (Some HostEngine) None 1) /\
  0 < 1 <= LONG_MAX /\
  run Z budget_StrAllocString budget_StrFree sample_IID_IBundleExtension
    [CallQueryInterface IID_IUnknown (Some None); CallRelease]
    (mkWorld (Some (mkExtension (Some HostEngine) None 1)) 5 100 0%nat)
  = Some ([ResultQuery S_OK (Some (Some (static_cast_this I_IUnknown)));
           ResultCount 1],
          mkWorld (Some (mkExtension (Some HostEngine) None 1)) 5 100 0%nat).
Proof.
  assert (Hc : 0 < 1 <= LONG_MAX) by (unfold LONG_MAX; lia).
  split; [reflexivity|]. split; [exact Hc|].
  exact (QueryInterface_then_Release_restores Z budget_StrAllocString
           budget_StrFree sample_IID_IBundleExtension IID_IUnknown None
           (mkWorld (Some (mkExtension (Some HostEngine) None 1)) 5 100 0%nat)
           (mkExtension (Some HostEngine) None 1) eq_refl Hc
           (or_intror eq_refl)).
Defined.

Lemma stored_count_is_outstanding_mod_2_32_witness :
  run Z budget_StrAllocString budget_StrFree sample_IID_IBundleExtension
    [CallAddRef; CallQueryInterface IID_IUnknown (Some None); CallRelease]
    (constructed 5 100)
  = Some ([ResultCount 2;
           ResultQuery S_OK (Some (Some (static_cast_this I_IUnknown)));
           ResultCount 2],
          mkWorld (Some (mkExtension (Some HostEngine) None 2)) 6 100 0%nat) /\
  2 = wrap_long (outstanding sample_IID_IBundleExtension
                   [CallAddRef; CallQueryInterface IID_IUnknown (Some None);
                    CallRelease]).
Proof.
  assert (Hrun :
    run Z budget_StrAllocString budget_StrFree sample_IID_IBundleExtension
      [CallAddRef; CallQueryInterface IID_IUnknown (Some None); CallRelease]
      (constructed 5 100)
    = Some ([ResultCount 2;
             ResultQuery S_OK (Some (Some (static_cast_this I_IUnknown)));
             ResultCount 2],
            mkWorld (Some (mkExtension (Some HostEngine) None 2)) 6 100 0%nat))
    by (vm_compute; reflexivity).
  split; [exact Hrun|].
  exact (stored_count_is_outstanding_mod_2_32 Z budget_StrAllocString
           budget_StrFree sample_IID_IBundleExtension 5 100 _ _ _ Hrun).
Defined.

Lemma counts_returned_are_outstanding_witness :
  within_long sample_IID_IBundleExtension
    [CallAddRef; CallQueryInterface IID_IUnknown (Some None); CallRelease]
  = true /\
  run Z budget_StrAllocString budget_StrFree sample_IID_IBundleExtension
    [CallAddRef; CallQueryInterface IID_IUnknown (Some None); CallRelease]
    (constructed 5 100)
  = Some ([ResultCount 2;
           ResultQuery S_OK (Some (Some (static_cast_this I_IUnknown)));
           ResultCount 2],
          mkWorld (Some (mkExtension (Some HostEngine) None 2)) 6 100 0%nat) /\
  nth_error [ResultCount 2;
             ResultQuery S_OK (Some (Some (static_cast_this I_IUnknown)));
             ResultCount 2] 2
  = Some (ResultCount
            (outstanding sample_IID_IBundleExtension
               (firstn 3 [CallAddRef;
                          CallQueryInterface IID_IUnknown (Some None);
                          CallRelease]))).
Proof.
  assert (Hin :
    within_long sample_IID_IBundleExtension
      [CallAddRef; CallQueryInterface IID_IUnknown (Some None); CallRelease]
    = true) by (vm_compute; reflexivity).
  assert (Hrun :
    run Z budget_StrAllocString budget_StrFree sample_IID_IBundleExtension
      [CallAddRef; CallQueryInterface IID_IUnknown (Some None); CallRelease]
      (constructed 5 100)
    = Some ([ResultCount 2;
             ResultQuery S_OK (Some (Some (static_cast_this I_IUnknown)));
             ResultCount 2],
            mkWorld (Some (mkExtension (Some HostEngine) None 2)) 6 100 0%nat))
    by (vm_compute; reflexivity).
  split; [exact Hin|]. split; [exact Hrun|].
  exact (counts_returned_are_outstanding Z budget_StrAllocString
           budget_StrFree sample_IID_IBundleExtension 5 100 _ _ _ Hin Hrun
           2%nat CallRelease eq_refl (or_intror eq_refl)).
Defined.

(** The budget allocator takes back what it handed out. *)
Lemma budget_StrFree_undoes_StrAllocString :
  StrFree_undoes_StrAllocString Z budget_StrAllocString budget_StrFree.
Proof.
  intros src h. unfold budget_StrAllocString, budget_StrFree.
  destruct src as [s|]; [|reflexivity]. cbn [Z.eqb].
  destruct (Z.of_nat (String.length s) + 1 <=? h); [lia | reflexivity].
Qed.

Lemma lifetime_restores_engine_and_heap_witness :
  StrFree_undoes_StrAllocString Z budget_StrAllocString budget_StrFree /\
  exists rs w,
    run Z budget_StrAllocString budget_StrFree sample_IID_IBundleExtension
      [CallInitialize (Some (mkCreateArgs (Some "data"%string)));
       CallAddRef; CallRelease; CallRelease]
      (constructed 5 100) = Some (rs, w) /\
    this w = None /\
    engine_refs w = 5 /\ heap w = 100 /\ dtor_runs w = 1%nat.
Proof.
  split; [exact budget_StrFree_undoes_StrAllocString|].
  assert (Hrun :
    run Z budget_StrAllocString budget_StrFree sample_IID_IBundleExtension
      [CallInitialize (Some (mkCreateArgs (Some "data"%string)));
       CallAddRef; CallRelease; CallRelease]
      (constructed 5 100)
    = Some ([ResultStatus S_OK; ResultCount 2; ResultCount 1; ResultCount 0],
            mkWorld None 5 100 1%nat))
    by (vm_compute; reflexivity).
  eexists. eexists. split; [exact Hrun|]. split; [reflexivity|].
  destruct (lifetime_restores_engine_and_heap Z budget_StrAllocString
              budget_StrFree sample_IID_IBundleExtension 5 100
              budget_StrFree_undoes_StrAllocString) as [_ Hinit].
  exact (Hinit _ [CallAddRef; CallRelease; CallRelease] _ _
           eq_refl Hrun eq_refl).
Defined.

Lemma Initialize_invisible_to_refcounting_witness :
  this (mkWorld (Some (mkExtension (Some HostEngine) None 2)) 5 100 0%nat)
  = Some (mkExtension (Some HostEngine) None 2) /\
  Initialize Z budget_StrAllocString
    (Some (mkCreateArgs (Some "data"%string)))
    (mkWorld (Some (mkExtension (Some HostEngine) None 2)) 5 100 0%nat)
  = Some (S_OK,
          mkWorld (Some (mkExtension (Some HostEngine) (Some "data"%string) 2))
                  5 95 0%nat) /\
  refcount_view
    (mkWorld (Some (mkExtension (Some HostEngine) (Some "data"%string) 2))
             5 95 0%nat)
  = refcount_view
      (mkWorld (Some (mkExtension (Some HostEngine) None 2)) 5 100 0%nat).
Proof.
  assert (Hinit :
    Initialize Z budget_StrAllocString
      (Some (mkCreateArgs (Some "data"%string)))
      (mkWorld (Some (mkExtension (Some HostEngine) None 2)) 5 100 0%nat)
    = Some (S_OK,
            mkWorld (Some (mkExtension (Some HostEngine)
                             (Some "data"%string) 2)) 5 95 0%nat))
    by (vm_compute; reflexivity).
  split; [reflexivity|]. split; [exact Hinit|].
  exact (proj1 (Initialize_invisible_to_refcounting Z budget_StrAllocString
                  budget_StrFree sample_IID_IBundleExtension
                  (mkCreateArgs (Some "data"%string))
                  (mkWorld (Some (mkExtension (Some HostEngine) None 2))
                           5 100 0%nat)
                  _ (mkExtension (Some HostEngine) None 2) S_OK
                  eq_refl Hinit)).
Defined.
